(** * gosugar: validators and panic helpers

    A shallow embedding of the validator constructors (validators.go), of
    the string input routine (input.go) and of the panic helpers
    (errors.go) of the gosugar library, together with the parts of the Go
    runtime and standard library they rest on: error values, panics and
    recover, [fmt.Errorf], [len] on strings and the UTF-8 encoding of
    runes.  It goes on with the integer input routine, the environment
    loader and accessors (env.go), the random helpers (random.go) and the
    GET helpers for the body (http.go), over the environment of the
    process, [strconv.Atoi] and a generator, a scanner and a network that
    are taken as given.

    Go integers of type [int] are embedded as [Z]; the code only compares
    them, so no wrap-around occurs.  A Go [string] is a sequence of bytes
    and is embedded as a Rocq [string], whose characters are bytes. *)

From Stdlib Require Import ZArith String Ascii List Bool Lia DecimalString.
From Stdlib Require Import DecimalPos.
Import ListNotations.

Local Open Scope string_scope.
Local Open Scope Z_scope.

(** ** Error values *)

(** The dynamic types of error values.  [errorString] is what [errors.New]
    builds and [wrapError] what [fmt.Errorf] builds for a [%w] verb;
    [foreignError] stands for an error of any other dynamic type, named by
    its type, as a caller of [Must] or [Check] may pass one. *)
Inductive error : Type :=
| errorString (s : string)
| wrapError (msg : string) (err : error)
| foreignError (type_name : string) (msg : string).

(** The method [Error() string] of the interface. *)
Definition Error (e : error) : string :=
  match e with
  | errorString s => s
  | wrapError msg _ => msg
  | foreignError _ msg => msg
  end.

(** [errors.Unwrap]. *)
Definition Unwrap (e : error) : option error :=
  match e with
  | wrapError _ err => Some err
  | _ => None
  end.

(** A value of interface type [error] is [nil] or holds an error: an
    [option error], with [None] for [nil]. *)
Module errors.
Definition New (text : string) : error := errorString text.
End errors.

(** ** Built-ins on strings *)

(** [len(s)]: the number of bytes of [s]. *)
Definition len (s : string) : Z := Z.of_nat (String.length s).

Module strconv.
(** [strconv.Itoa]: the decimal rendering of an integer, with a minus
    sign for the negative ones. *)
Definition Itoa (n : Z) : string := NilZero.string_of_int (Z.to_int n).

(** The two kinds of failure of a conversion.  The error is a
    [*strconv.NumError]; the library only asks whether it is nil, and the
    kind is all that is kept of it. *)
Inductive NumError : Type :=
| ErrSyntax
| ErrRange.

Definition maxUint64 : Z := 2 ^ 64 - 1.

(** The loop of [strconv.ParseUint] in base 10 on 64 bits: a byte that is
    not a decimal digit is a syntax error; a value that leaves the 64
    bits is a range error, reported with the largest value. *)
Fixpoint ParseUint_digits (s : string) (n : Z) : Z * option NumError :=
  match s with
  | EmptyString => (n, None)
  | String c s' =>
      let d := Z.of_N (N_of_ascii c) - 48 in
      if (d <? 0) || (9 <? d) then (0, Some ErrSyntax)
      else if maxUint64 / 10 + 1 <=? n then (maxUint64, Some ErrRange)
      else
        let n1 := n * 10 + d in
        if maxUint64 <? n1 then (maxUint64, Some ErrRange)
        else ParseUint_digits s' n1
  end.

Definition ParseUint (s : string) : Z * option NumError :=
  match s with
  | EmptyString => (0, Some ErrSyntax)
  | _ => ParseUint_digits s 0
  end.

(** [strconv.ParseInt(s, 10, 0)] with an [int] of 64 bits: an optional
    sign, then [ParseUint]; a syntax error is passed on, and a value
    outside the 64-bit signed range is a range error, reported with the
    nearest bound. *)
Definition ParseInt (s : string) : Z * option NumError :=
  match s with
  | EmptyString => (0, Some ErrSyntax)
  | String c s' =>
      let neg := Ascii.eqb c "-" in
      let s1 := if Ascii.eqb c "+" || neg then s' else s in
      let '(un, err) := ParseUint s1 in
      match err with
      | Some ErrSyntax => (0, err)
      | _ =>
          let cutoff := 2 ^ 63 in
          if negb neg && (cutoff <=? un) then (cutoff - 1, Some ErrRange)
          else if neg && (cutoff <? un) then (- cutoff, Some ErrRange)
          else (if neg then - un else un, None)
      end
  end.

(** [strconv.Atoi]: [ParseInt] in base 10 (its fast path for short
    strings computes the same result). *)
Definition Atoi (s : string) : Z * option NumError := ParseInt s.
End strconv.

(** ** fmt: the verbs the library uses *)

Module fmt.

(** The operands handed to a formatting call. *)
Inductive operand : Type :=
| int_arg (n : Z)
| string_arg (s : string)
| error_arg (e : error).

(** Rendering of one operand under one verb.  [%d] prints an integer in
    decimal; [%s], [%v] and [%w] print a string as it is and an error by
    its [Error] method; [%v] prints an integer in decimal.  Any other
    pairing is a formatting mistake, which fmt reports in the output
    text; the library has none, and the rendering below only marks it. *)
Definition render (verb : ascii) (x : operand) : string :=
  match x with
  | int_arg n =>
      if (Ascii.eqb verb "d" || Ascii.eqb verb "v")%bool then strconv.Itoa n
      else "%!" ++ String verb "(int=" ++ strconv.Itoa n ++ ")"
  | string_arg s =>
      if (Ascii.eqb verb "s" || Ascii.eqb verb "v")%bool then s
      else "%!" ++ String verb "(string=" ++ s ++ ")"
  | error_arg e =>
      if (Ascii.eqb verb "s" || Ascii.eqb verb "v" || Ascii.eqb verb "w")%bool
      then Error e
      else "%!" ++ String verb "(error=" ++ Error e ++ ")"
  end.

(** [fmt.Sprintf]: the format is copied, and every verb consumes the
    next operand ([%%] prints a percent sign and consumes none). *)
Fixpoint Sprintf (format : string) (a : list operand) : string :=
  match format with
  | EmptyString => EmptyString
  | String c EmptyString =>
      if Ascii.eqb c "%" then "%!(NOVERB)" else String c EmptyString
  | String c (String verb rest as tail) =>
      if Ascii.eqb c "%" then
        if Ascii.eqb verb "%" then String "%" (Sprintf rest a)
        else
          match a with
          | x :: a' => render verb x ++ Sprintf rest a'
          | [] => "%!" ++ String verb "(MISSING)" ++ Sprintf rest []
          end
      else String c (Sprintf tail a)
  end.

(** The operand of the first [%w] verb of the format, when it is an
    error. *)
Fixpoint wrapped (format : string) (a : list operand) : option error :=
  match format with
  | EmptyString => None
  | String c EmptyString => None
  | String c (String verb rest as tail) =>
      if Ascii.eqb c "%" then
        if Ascii.eqb verb "%" then wrapped rest a
        else
          match a with
          | error_arg e :: a' =>
              if Ascii.eqb verb "w" then Some e else wrapped rest a'
          | _ :: a' => wrapped rest a'
          | [] => None
          end
      else wrapped tail a
  end.

(** [fmt.Errorf]: an error whose text is the formatted string; with a
    [%w] verb on an error operand the result wraps that operand. *)
Definition Errorf (format : string) (a : list operand) : error :=
  let s := Sprintf format a in
  match wrapped format a with
  | Some err => wrapError s err
  | None => errors.New s
  end.

(** The verb [%q] prints a string operand quoted by [strconv.Quote],
    which is taken as given; the other verbs are as above. *)
Definition render_with (Quote : string -> string) (verb : ascii)
  (x : operand) : string :=
  match x with
  | string_arg s => if Ascii.eqb verb "q" then Quote s else render verb x
  | _ => render verb x
  end.

Fixpoint Sprintf_with (Quote : string -> string) (format : string)
  (a : list operand) : string :=
  match format with
  | EmptyString => EmptyString
  | String c EmptyString =>
      if Ascii.eqb c "%" then "%!(NOVERB)" else String c EmptyString
  | String c (String verb rest as tail) =>
      if Ascii.eqb c "%" then
        if Ascii.eqb verb "%" then String "%" (Sprintf_with Quote rest a)
        else
          match a with
          | x :: a' => render_with Quote verb x ++ Sprintf_with Quote rest a'
          | [] => "%!" ++ String verb "(MISSING)" ++ Sprintf_with Quote rest []
          end
      else String c (Sprintf_with Quote tail a)
  end.

Definition Errorf_with (Quote : string -> string) (format : string)
  (a : list operand) : error :=
  let s := Sprintf_with Quote format a in
  match wrapped format a with
  | Some err => wrapError s err
  | None => errors.New s
  end.

End fmt.

(** ** strings *)

Module strings.

(** [strings.HasPrefix]. *)
Fixpoint HasPrefix (s prefix : string) : bool :=
  match prefix, s with
  | EmptyString, _ => true
  | String p prefix', String c s' => Ascii.eqb c p && HasPrefix s' prefix'
  | String _ _, EmptyString => false
  end.

(** [s[n:]]. *)
Fixpoint drop (n : nat) (s : string) : string :=
  match n, s with
  | O, _ => s
  | S n', String _ s' => drop n' s'
  | S _, EmptyString => EmptyString
  end.

(** [strings.Cut]: the text before and after the first occurrence of
    [sep]; without an occurrence, the whole of [s], the empty string and
    false. *)
Fixpoint Cut (s sep : string) : string * string * bool :=
  if HasPrefix s sep then (EmptyString, drop (String.length sep) s, true)
  else
    match s with
    | EmptyString => (s, EmptyString, false)
    | String c s' =>
        let '(before, after, found) := Cut s' sep in
        if found then (String c before, after, true)
        else (s, EmptyString, false)
    end.

Fixpoint isASCII (s : string) : bool :=
  match s with
  | EmptyString => true
  | String c s' => (N_of_ascii c <? 128)%N && isASCII s'
  end.

Definition lower (c : ascii) : ascii :=
  let n := N_of_ascii c in
  if ((65 <=? n) && (n <=? 90))%N then ascii_of_N (n + 32) else c.

Fixpoint map_bytes (f : ascii -> ascii) (s : string) : string :=
  match s with
  | EmptyString => EmptyString
  | String c s' => String (f c) (map_bytes f s')
  end.

(** [strings.ToLower]: on a string of ASCII bytes, the letters A to Z are
    lowered byte by byte; on any other string the runes are mapped by
    [unicode.ToLower], which is taken as given. *)
Definition ToLower (unicode : string -> string) (s : string) : string :=
  if isASCII s then map_bytes lower s else unicode s.

End strings.

(** ** Arithmetic on [int] *)

(** An [int] has 64 bits; a sum or a difference that leaves the range
    wraps around. *)
Definition minInt : Z := - 2 ^ 63.
Definition maxInt : Z := 2 ^ 63 - 1.
Definition int_wrap (z : Z) : Z := (z + 2 ^ 63) mod 2 ^ 64 - 2 ^ 63.
Definition int_add (a b : Z) : Z := int_wrap (a + b).
Definition int_sub (a b : Z) : Z := int_wrap (a - b).

(** ** utf8: the encoding of runes *)

Module utf8.

Definition RuneError : Z := 0xFFFD.
Definition MaxRune : Z := 0x10FFFF.
Definition surrogateMin : Z := 0xD800.
Definition surrogateMax : Z := 0xDFFF.
Definition rune1Max : Z := 0x7F.
Definition rune2Max : Z := 0x7FF.
Definition rune3Max : Z := 0xFFFF.
Definition tx : Z := 0x80.
Definition t2 : Z := 0xC0.
Definition t3 : Z := 0xE0.
Definition t4 : Z := 0xF0.
Definition maskx : Z := 0x3F.

(** The conversions [uint32(r)] and [byte(x)]. *)
Definition uint32 (r : Z) : Z := r mod 2 ^ 32.
Definition byte (x : Z) : ascii := ascii_of_N (Z.to_N (x mod 2 ^ 8)).

Definition bytes (l : list Z) : string :=
  fold_right (fun b s => String (byte b) s) EmptyString l.

(** [utf8.AppendRune] on an empty buffer: the bytes of one rune.  A rune
    out of range or in the surrogate range is encoded as [RuneError]. *)
Definition EncodeRune (r : Z) : string :=
  let i := uint32 r in
  if i <=? rune1Max then bytes [r]
  else if i <=? rune2Max then
    bytes [Z.lor t2 (Z.shiftr r 6); Z.lor tx (Z.land r maskx)]
  else if (MaxRune <? i) || ((surrogateMin <=? i) && (i <=? surrogateMax)) then
    let r := RuneError in
    bytes [Z.lor t3 (Z.shiftr r 12); Z.lor tx (Z.land (Z.shiftr r 6) maskx);
           Z.lor tx (Z.land r maskx)]
  else if i <=? rune3Max then
    bytes [Z.lor t3 (Z.shiftr r 12); Z.lor tx (Z.land (Z.shiftr r 6) maskx);
           Z.lor tx (Z.land r maskx)]
  else
    bytes [Z.lor t4 (Z.shiftr r 18); Z.lor tx (Z.land (Z.shiftr r 12) maskx);
           Z.lor tx (Z.land (Z.shiftr r 6) maskx); Z.lor tx (Z.land r maskx)].

(** The conversion [string(runes)]: the encodings, concatenated. *)
Fixpoint EncodeRunes (rs : list Z) : string :=
  match rs with
  | [] => EmptyString
  | r :: rs' => EncodeRune r ++ EncodeRunes rs'
  end.

(** [utf8.RuneCountInString] on an encoded text gives back the number of
    runes; on the side of the runes it is the length of the list. *)
Definition RuneCount (rs : list Z) : Z := Z.of_nat (List.length rs).

End utf8.

(** ** Panics *)

(** The payload of a panic is a value of type [any]: here [nil], an error
    or a string, the kinds of payload this library raises or meets. *)
Inductive any : Type :=
| any_nil
| any_error (e : error)
| any_string (s : string).

Definition is_nil (x : any) : bool :=
  match x with
  | any_nil => true
  | _ => false
  end.

(** How a call ends: it returns a value, or it panics with a payload. *)
Inductive outcome (A : Type) : Type :=
| Returns (a : A)
| Panics (p : any).

Arguments Returns {A} a.
Arguments Panics {A} p.

(** The zero value of a type. *)
Class Zero (T : Type) : Type := zero : T.

#[export] Instance Zero_int : Zero Z := 0.
#[export] Instance Zero_string : Zero string := EmptyString.
#[export] Instance Zero_bool : Zero bool := false.
#[export] Instance Zero_unit : Zero unit := tt.
#[export] Instance Zero_interface {A : Type} : Zero (option A) := None.

(** A Go computation over a world [W] (standard input and output, the
    variables a closure captures): it takes the world and gives back how
    it ended and the world it left. *)
Definition Go (W A : Type) : Type := W -> outcome A * W.

Definition ret {W A : Type} (a : A) : Go W A := fun w => (Returns a, w).

Definition bind {W A B : Type} (c : Go W A) (k : A -> Go W B) : Go W B :=
  fun w =>
    match c w with
    | (Returns a, w') => k a w'
    | (Panics p, w') => (Panics p, w')
    end.

(** The built-in [panic]. *)
Definition panic {W A : Type} (p : any) : Go W A := fun w => (Panics p, w).

Declare Scope go_scope.
Delimit Scope go_scope with go.
Notation "x <- c ;; k" := (bind c (fun x => k))
  (at level 61, c at next level, right associativity) : go_scope.
Notation "c ;;; k" := (bind c (fun _ => k))
  (at level 61, right associativity) : go_scope.

(** ** The library *)

(** What one call of [Scan] on a scanner over standard input gives: a line
    ([Scan] is true and [Text] is the line), or the end of the input
    ([Scan] is false and [Err] is [nil] or an error). *)
Inductive scanned : Type :=
| scan_token (text : string)
| scan_stop (err : option error).

(** The named results of [Try] and the panic in flight, as its deferred
    closure finds them. *)
Record Try_frame (T : Type) : Type := mkFrame {
  frame_v : T;
  frame_ok : bool;
  frame_panic : option any
}.

Arguments mkFrame {T} _ _ _.
Arguments frame_v {T} _.
Arguments frame_ok {T} _.
Arguments frame_panic {T} _.

(** The built-in [recover], called by a deferred function: it gives the
    payload of the panic in flight and stops the panic; with no panic in
    flight it gives [nil]. *)
Definition recover {T : Type} (f : Try_frame T) : any * Try_frame T :=
  match frame_panic f with
  | Some p => (p, mkFrame (frame_v f) (frame_ok f) None)
  | None => (any_nil, f)
  end.

(** A run-time error, the payload of the panic of an index out of range. *)
Definition index_out_of_range : any :=
  any_error (foreignError "runtime.Error" "index out of range").

(** [len(items)] and [items[i]] on a slice, and [s[i]] on a string: an
    index outside the bounds panics. *)
Definition len_slice {T : Type} (items : list T) : Z :=
  Z.of_nat (List.length items).

Definition index {W T : Type} (items : list T) (i : Z) : Go W T :=
  if (i <? 0) || (len_slice items <=? i) then panic index_out_of_range
  else
    match nth_error items (Z.to_nat i) with
    | Some x => ret x
    | None => panic index_out_of_range
    end.


Section gosugar.

Context {W : Type}.
Local Open Scope go_scope.

(** *** validators.go *)

Definition Validator : Type := string -> Go W (option error).

Definition NotEmpty : Validator :=
  fun s =>
    if String.eqb s "" then ret (Some (errors.New "value cannot be empty"))
    else ret None.

Definition MinLen (n : Z) : Validator :=
  fun s =>
    if len s <? n
    then ret (Some (fmt.Errorf "minimum length is %d" [fmt.int_arg n]))
    else ret None.

Definition MaxLen (n : Z) : Validator :=
  fun s =>
    if len s >? n
    then ret (Some (fmt.Errorf "maximum length is %d" [fmt.int_arg n]))
    else ret None.

(** *** errors.go *)

Definition Must {T : Type} (v : T) (err : option error) : Go W T :=
  match err with
  | Some e => panic (any_error e)
  | None => ret v
  end.

Definition Check (err : option error) : Go W unit :=
  match err with
  | Some e => panic (any_error e)
  | None => ret tt
  end.

(** The deferred closure of [Try]: [if recover() != nil { ok = false }]. *)
Definition Try_deferred {T : Type} (f : Try_frame T) : Try_frame T :=
  let '(r, f') := recover f in
  if negb (is_nil r) then mkFrame (frame_v f') false (frame_panic f')
  else f'.

(** [Try]: the named results [v] and [ok] start at their zero values;
    [return fn(), true] sets them when [fn] returns and leaves them when
    [fn] panics; the deferred closure runs in both cases; the call
    returns the named results unless a panic is still in flight. *)
Definition Try {T : Type} `{Zero T} (fn : Go W T) : Go W (T * bool) :=
  fun w =>
    let f0 := mkFrame (zero : T) (zero : bool) None in
    let '(o, w') := fn w in
    let f1 :=
      match o with
      | Returns r => mkFrame r true None
      | Panics p => mkFrame (frame_v f0) (frame_ok f0) (Some p)
      end in
    let f2 := Try_deferred f1 in
    match frame_panic f2 with
    | Some p => (Panics p, w')
    | None => (Returns (frame_v f2, frame_ok f2), w')
    end.

Definition Or {T : Type} (v : T) (ok : bool) (fallback : T) : Go W T :=
  if ok then ret v else ret fallback.

Definition Ignore (err : option error) : Go W unit :=
  let _ := err in ret tt.

(** *** input.go *)

(** Standard output, the scanner on standard input and
    [strings.TrimSpace] are taken as given. *)
Variable Print : string -> Go W unit.
Variable Scan : Go W scanned.
Variable TrimSpace : string -> string.

Definition inputRaw (prompt : string) : Go W string :=
  (if negb (String.eqb prompt "") then Print prompt else ret tt) ;;;
  r <- Scan ;;
  match r with
  | scan_stop (Some err) => panic (any_error err)
  | scan_stop None => panic (any_string "input error")
  | scan_token text => ret (TrimSpace text)
  end.

(** The loop of [Input] over the validators, followed by its
    [return input]. *)
Fixpoint Input_range (validators : list Validator) (input : string)
  : Go W string :=
  match validators with
  | [] => ret input
  | validate :: rest =>
      err <- validate input ;;
      match err with
      | Some e =>
          panic (any_error
                   (fmt.Errorf "invalid string input: %w" [fmt.error_arg e]))
      | None => Input_range rest input
      end
  end.

Definition Input (prompt : string) (validators : list Validator)
  : Go W string :=
  input <- inputRaw prompt ;;
  Input_range validators input.

End gosugar.

Arguments Validator W : clear implicits.

(** *** input.go, the numbers *)

Section input_numbers.

Context {W : Type}.
Local Open Scope go_scope.

Variable Print : string -> Go W unit.
Variable Scan : Go W scanned.
Variable TrimSpace : string -> string.
Variable Quote : string -> string.

Definition InputInt (prompt : string) (defaultValue : list Z) : Go W Z :=
  input <- inputRaw Print Scan TrimSpace prompt ;;
  let '(value, err) := strconv.Atoi input in
  match err with
  | Some _ =>
      match defaultValue with
      | d :: _ => ret d
      | [] =>
          panic (any_error
                   (fmt.Errorf_with Quote "invalid integer input: %q"
                      [fmt.string_arg input]))
      end
  | None => ret value
  end.

End input_numbers.

(** ** os: the environment and the files of the process *)

Module os.

(** A file as a line scanner reads it: the lines it yields and the error
    its [Err] reports once [Scan] is false. *)
Record file : Type := mkFile {
  lines : list string;
  scan_err : option error
}.

(** The process: its environment, a list of keys with their values in
    which the first entry of a key counts, and the files that can be
    opened, by path. *)
Record process : Type := mkProcess {
  environ : list (string * string);
  files : string -> option file
}.

Fixpoint lookup (env : list (string * string)) (key : string)
  : option string :=
  match env with
  | [] => None
  | (k, v) :: env' => if String.eqb k key then Some v else lookup env' key
  end.

(** The entry of [key] takes the value; a key without entry gets one at
    the end. *)
Fixpoint store (env : list (string * string)) (key value : string)
  : list (string * string) :=
  match env with
  | [] => [(key, value)]
  | (k, v) :: env' =>
      if String.eqb k key then (k, value) :: env'
      else (k, v) :: store env' key value
  end.

Fixpoint has_byte (s : string) (c : ascii) : bool :=
  match s with
  | EmptyString => false
  | String c' s' => Ascii.eqb c' c || has_byte s' c
  end.

(** [os.LookupEnv]: the empty key is never found. *)
Definition LookupEnv (key : string) : Go process (string * bool) :=
  fun w =>
    if String.eqb key "" then (Returns (EmptyString, false), w)
    else
      match lookup (environ w) key with
      | Some value => (Returns (value, true), w)
      | None => (Returns (EmptyString, false), w)
      end.

Definition EINVAL : error :=
  foreignError "*os.SyscallError" "setenv: invalid argument".

(** What [os.Setenv] refuses (Unix): an empty key, a key with an equals
    sign or a NUL byte, and a value with a NUL byte. *)
Definition refused (key value : string) : bool :=
  String.eqb key "" || has_byte key "=" || has_byte key "000"
  || has_byte value "000".

Definition Setenv (key value : string) : Go process (option error) :=
  fun w =>
    if refused key value then (Returns (Some EINVAL), w)
    else (Returns None, mkProcess (store (environ w) key value) (files w)).

End os.

(** *** env.go *)

Section env.

Local Open Scope go_scope.

(** [strings.TrimSpace], [strconv.Quote] and the mapping of the runes of
    a string by [unicode.ToLower] are taken as given. *)
Variable TrimSpace : string -> string.
Variable Quote : string -> string.
Variable unicode_ToLower : string -> string.

(** The loop of [EnvFile] over the lines the scanner yields. *)
Fixpoint EnvFile_scan (lines : list string) : Go os.process unit :=
  match lines with
  | [] => ret tt
  | text :: rest =>
      let line := TrimSpace text in
      if String.eqb line "" || strings.HasPrefix line "#" then
        EnvFile_scan rest
      else
        let '(key, value, ok) := strings.Cut line "=" in
        if negb ok then
          panic (any_error
                   (fmt.Errorf_with Quote "invalid env line: %q"
                      [fmt.string_arg line]))
        else
          let key := TrimSpace key in
          let value := TrimSpace value in
          r <- os.LookupEnv key ;;
          if snd r then EnvFile_scan rest
          else
            err <- os.Setenv key value ;;
            match err with
            | Some _ =>
                panic (any_error
                         (fmt.Errorf "failed to set env %s"
                            [fmt.string_arg key]))
            | None => EnvFile_scan rest
            end
  end.

Definition EnvFile (path : string) : Go os.process unit :=
  fun w =>
    match os.files w path with
    | None =>
        panic (any_error
                 (fmt.Errorf "cannot open env file: %s" [fmt.string_arg path]))
              w
    | Some file =>
        (EnvFile_scan (os.lines file) ;;;
         match os.scan_err file with
         | Some err => panic (any_error err)
         | None => ret tt
         end) w
    end.

Definition EnvString (key : string) (defaultValue : list string)
  : Go os.process string :=
  r <- os.LookupEnv key ;;
  let '(value, ok) := r in
  if ok && negb (String.eqb value "") then ret value
  else
    match defaultValue with
    | d :: _ => ret d
    | [] => ret EmptyString
    end.

Definition EnvInt (key : string) (defaultValue : list Z)
  : Go os.process Z :=
  r <- os.LookupEnv key ;;
  let '(value, ok) := r in
  if negb ok || String.eqb value "" then
    match defaultValue with
    | d :: _ => ret d
    | [] =>
        panic (any_error
                 (fmt.Errorf "missing env var: %s" [fmt.string_arg key]))
    end
  else
    let '(v, err) := strconv.Atoi value in
    match err with
    | Some _ =>
        match defaultValue with
        | d :: _ => ret d
        | [] =>
            panic (any_error
                     (fmt.Errorf_with Quote "invalid int env var %s=%q"
                        [fmt.string_arg key; fmt.string_arg value]))
        end
    | None => ret v
    end.

Definition EnvBool (key : string) (defaultValue : list bool)
  : Go os.process bool :=
  r <- os.LookupEnv key ;;
  let '(value, ok) := r in
  if negb ok || String.eqb value "" then
    match defaultValue with
    | d :: _ => ret d
    | [] =>
        panic (any_error
                 (fmt.Errorf "missing env var: %s" [fmt.string_arg key]))
    end
  else
    let lowered := strings.ToLower unicode_ToLower value in
    if existsb (String.eqb lowered) ["true"; "1"; "yes"; "y"; "on"] then
      ret true
    else if existsb (String.eqb lowered) ["false"; "0"; "no"; "n"; "off"] then
      ret false
    else
      match defaultValue with
      | d :: _ => ret d
      | [] =>
          panic (any_error
                   (fmt.Errorf_with Quote "invalid bool env var %s=%q"
                      [fmt.string_arg key; fmt.string_arg value]))
      end.

Definition MustEnv (key : string) : Go os.process string :=
  r <- os.LookupEnv key ;;
  let '(value, ok) := r in
  if negb ok || String.eqb value "" then
    panic (any_error
             (fmt.Errorf "required env var missing: %s" [fmt.string_arg key]))
  else ret value.

End env.

(** *** random.go *)

Section random.

Context {W : Type}.
Local Open Scope go_scope.

(** [rand.Intn], over the state of the generator, is taken as given. *)
Variable Intn : Z -> Go W Z.

Definition RandInt (min max : Z) : Go W Z :=
  if min >? max then panic (any_string "min cannot be greater than max")
  else
    r <- Intn (int_add (int_sub max min) 1) ;;
    ret (int_add r min).

Definition RandBool : Go W bool :=
  r <- Intn 2 ;;
  ret (r =? 1).

Definition Choice {T : Type} (items : list T) : Go W T :=
  if len_slice items =? 0 then panic (any_string "cannot choose from empty slice")
  else
    i <- Intn (len_slice items) ;;
    index items i.




End random.

(** *** http.go, the GET helpers for the body *)

Module http.

(** A response as the helpers look at it: its status code, and what
    [io.ReadAll] gets from its body, the bytes read and an error or
    nil. *)
Record Response : Type := mkResponse {
  StatusCode : Z;
  Body : string * option error
}.

Definition StatusOK : Z := 200.

End http.

Section http_get.

Context {W : Type}.
Local Open Scope go_scope.

(** The network is taken as given: [http.Get], which gives an error or a
    response, the reading of a body by [io.ReadAll], and the closing of a
    body. *)
Variable Get : string -> Go W (error + http.Response).
Variable ReadAll : http.Response -> Go W (string * option error).
Variable Close : http.Response -> W -> W.

Definition GetBody (url : string) : Go W (string * option error) :=
  fun w =>
    match Get url w with
    | (Panics p, w1) => (Panics p, w1)
    | (Returns (inl err), w1) => (Returns (EmptyString, Some err), w1)
    | (Returns (inr resp), w1) =>
        let '(o, w2) :=
          (if negb (http.StatusCode resp =? http.StatusOK) then
             ret (EmptyString,
                  Some (fmt.Errorf "status code: %d"
                          [fmt.int_arg (http.StatusCode resp)]))
           else
             r <- ReadAll resp ;;
             match snd r with
             | Some err => ret (EmptyString, Some err)
             | None => ret (fst r, None)
             end) w1 in
        (* the deferred resp.Body.Close() *)
        (o, Close resp w2)
    end.

Definition MustGetBody (url : string) : Go W string :=
  r <- GetBody url ;;
  match snd r with
  | Some err => panic (any_error err)
  | None => ret (fst r)
  end.

End http_get.

(** ** Verdicts of a validator *)

Section verdicts.

Context {W : Type}.

(** The validator returns a failure reason. *)
Definition rejects (validate : Validator W) (s : string) (w : W) : Prop :=
  exists reason w', validate s w = (Returns (Some reason), w').

(** The validator returns [nil]. *)
Definition accepts (validate : Validator W) (s : string) (w : W) : Prop :=
  exists w', validate s w = (Returns None, w').

(** The validators of a list, called in the order of the list on the
    same input, each in the world the one before it left, all return
    [nil]; the last one leaves the world [w']. *)
Inductive passes (input : string) : list (Validator W) -> W -> W -> Prop :=
| passes_nil (w : W) : passes input [] w w
| passes_cons (validate : Validator W) (rest : list (Validator W))
    (w w1 w' : W) :
    validate input w = (Returns None, w1) ->
    passes input rest w1 w' ->
    passes input (validate :: rest) w w'.

End verdicts.

(** The abort of [Input] for a failure reason: [fmt.Errorf] with the format
    of the source, and what it amounts to. *)
Definition invalid_string_input (reason : error) : error :=
  wrapError ("invalid string input: " ++ Error reason) reason.

(** A rune whose encoding takes more than one byte. *)
Definition multibyte (r : Z) : Prop := utf8.rune1Max < utf8.uint32 r.

(** ** A world to run examples in *)

Module harness.

(** The lines waiting on standard input, the text printed so far and a
    counter of calls. *)
Record world : Type := mkWorld {
  stdin : list string;
  stdout : string;
  calls : nat
}.

Definition Print (s : string) : Go world unit :=
  fun w => (Returns tt, mkWorld (stdin w) (stdout w ++ s) (calls w)).

Definition Scan : Go world scanned :=
  fun w =>
    match stdin w with
    | [] => (Returns (scan_stop None), w)
    | line :: lines =>
        (Returns (scan_token line), mkWorld lines (stdout w) (calls w))
    end.

Definition isSpace (c : ascii) : bool :=
  (Ascii.eqb c " " || Ascii.eqb c "009" || Ascii.eqb c "010"
   || Ascii.eqb c "011" || Ascii.eqb c "012" || Ascii.eqb c "013")%bool.

Fixpoint trimLeft (s : string) : string :=
  match s with
  | EmptyString => EmptyString
  | String c s' => if isSpace c then trimLeft s' else s
  end.

Definition reverse (s : string) : string :=
  string_of_list_ascii (rev (list_ascii_of_string s)).

(** [strings.TrimSpace] on ASCII text. *)
Definition TrimSpace (s : string) : string :=
  reverse (trimLeft (reverse (trimLeft s))).

(** A validator that counts its calls before it runs. *)
Definition counting (validate : Validator world) : Validator world :=
  fun s w => validate s (mkWorld (stdin w) (stdout w) (S (calls w))).

(** A function that panics with a run-time error. *)
Definition divide_by_zero : Go world Z :=
  panic (any_error (foreignError "runtime.Error" "integer divide by zero")).

(** [strconv.Quote] on printable ASCII text without quotes or
    backslashes: the text between double quotes. *)
Definition Quote (s : string) : string :=
  String "034" (s ++ String "034" EmptyString).

(** A generator over a seed, for [rand.Intn]. *)
Definition Intn (n : Z) : Go Z Z :=
  fun seed =>
    if n <=? 0 then (Panics (any_string "invalid argument to Intn"), seed)
    else (Returns (seed mod n), (seed * 1103515245 + 12345) mod 2 ^ 31).

(** A network with three addresses, over a count of the bodies closed. *)
Definition Get (url : string) : Go Z (error + http.Response) :=
  fun w =>
    if String.eqb url "http://host/ok" then
      (Returns (inr (http.mkResponse 200 ("hello", None))), w)
    else if String.eqb url "http://host/new" then
      (Returns (inr (http.mkResponse 201 ("made", None))), w)
    else (Returns (inl (foreignError "*url.Error" "no such host")), w).

Definition ReadAll (resp : http.Response) : Go Z (string * option error) :=
  ret (http.Body resp).

Definition Close (resp : http.Response) (w : Z) : Z := w + 1.

(** A process with two variables and one file. *)
Definition dotenv : os.file :=
  os.mkFile ["# settings"; ""; "PORT = 8080"; "HOME=/srv"; "DEBUG=Yes";
             "PORT=9090"; "EMPTY=filled"] None.

Definition broken : os.file :=
  os.mkFile ["A=1"; "oops"; "B=2"] None.

Definition process : os.process :=
  os.mkProcess [("HOME", "/root"); ("EMPTY", "")]
    (fun path =>
       if String.eqb path ".env" then Some dotenv
       else if String.eqb path "broken.env" then Some broken
       else None).

(** The process once [".env"] is loaded. *)
Definition loaded : os.process :=
  os.mkProcess
    [("HOME", "/root"); ("EMPTY", ""); ("PORT", "8080"); ("DEBUG", "Yes")]
    (os.files process).

End harness.

(** [Input] in the example world, on the validators
    [NotEmpty(), MinLen(3), MaxLen(5)]. *)
Definition chain : list (Validator harness.world) :=
  [NotEmpty; MinLen 3; harness.counting (MaxLen 5)].

Definition typed (line : string) : harness.world :=
  harness.mkWorld [line] "" 0.

Definition Input_harness (prompt : string)
  (validators : list (Validator harness.world)) : Go harness.world string :=
  Input harness.Print harness.Scan harness.TrimSpace prompt validators.

Definition InputInt_harness (prompt : string) (defaults : list Z)
  : Go harness.world Z :=
  InputInt harness.Print harness.Scan harness.TrimSpace harness.Quote
    prompt defaults.

Definition GetBody_harness : string -> Go Z (string * option error) :=
  GetBody harness.Get harness.ReadAll harness.Close.

(** The prompt of an input routine, when there is one, has been printed,
    and the world is then [w1]. *)
Definition prompted {W : Type} (Print : string -> Go W unit)
  (prompt : string) (w0 w1 : W) : Prop :=
  (prompt = "" /\ w1 = w0)
  \/ (prompt <> "" /\ Print prompt w0 = (Returns tt, w1)).

(** ** The lines of an env file *)

(** How [EnvFile] reads a line: a blank line or a comment, which it
    skips; a line without equals sign, on which it panics; or the
    assignment of a value to a key, both trimmed. *)
Inductive env_line : Type :=
| env_skip
| env_invalid (line : string)
| env_assign (key value : string).

Definition read_env_line (TrimSpace : string -> string) (text : string)
  : env_line :=
  let line := TrimSpace text in
  if String.eqb line "" || strings.HasPrefix line "#" then env_skip
  else
    match strings.Cut line "=" with
    | (key, value, true) => env_assign (TrimSpace key) (TrimSpace value)
    | (_, _, false) => env_invalid line
    end.

(** The variable is set in the environment of the process. *)
Definition is_set (w : os.process) (key : string) : Prop :=
  key <> "" /\ os.lookup (os.environ w) key <> None.

(** ** Decimal digits *)

(** The number a sequence of decimal digits denotes, read from the left
    after digits that gave [acc]. *)
Fixpoint decimal_value (d : Decimal.uint) (acc : Z) : Z :=
  match d with
  | Decimal.Nil => acc
  | Decimal.D0 l => decimal_value l (acc * 10 + 0)
  | Decimal.D1 l => decimal_value l (acc * 10 + 1)
  | Decimal.D2 l => decimal_value l (acc * 10 + 2)
  | Decimal.D3 l => decimal_value l (acc * 10 + 3)
  | Decimal.D4 l => decimal_value l (acc * 10 + 4)
  | Decimal.D5 l => decimal_value l (acc * 10 + 5)
  | Decimal.D6 l => decimal_value l (acc * 10 + 6)
  | Decimal.D7 l => decimal_value l (acc * 10 + 7)
  | Decimal.D8 l => decimal_value l (acc * 10 + 8)
  | Decimal.D9 l => decimal_value l (acc * 10 + 9)
  end.

(** ** Strings and formatting *)

Lemma append_empty_r (s : string) : s ++ "" = s.
Proof.
  induction s as [| c s IH]; simpl; [reflexivity | now rewrite IH].
Qed.

Lemma length_append (s t : string) :
  String.length (s ++ t) = (String.length s + String.length t)%nat.
Proof.
  induction s as [| c s IH]; simpl; [reflexivity | now rewrite IH].
Qed.

Lemma len_nonneg (s : string) : 0 <= len s.
Proof. unfold len. lia. Qed.

Lemma len_append (s t : string) : len (s ++ t) = len s + len t.
Proof. unfold len. rewrite length_append. lia. Qed.

Lemma Errorf_minimum (n : Z) :
  fmt.Errorf "minimum length is %d" [fmt.int_arg n]
  = errors.New ("minimum length is " ++ strconv.Itoa n).
Proof.
  unfold fmt.Errorf. cbn. now rewrite append_empty_r.
Qed.

Lemma Errorf_maximum (n : Z) :
  fmt.Errorf "maximum length is %d" [fmt.int_arg n]
  = errors.New ("maximum length is " ++ strconv.Itoa n).
Proof.
  unfold fmt.Errorf. cbn. now rewrite append_empty_r.
Qed.

Lemma Errorf_invalid_string_input (reason : error) :
  fmt.Errorf "invalid string input: %w" [fmt.error_arg reason]
  = invalid_string_input reason.
Proof.
  unfold fmt.Errorf, invalid_string_input. cbn. now rewrite append_empty_r.
Qed.

(** ** The built-in validators *)

Section validators_spec.

Context {W : Type}.

Lemma MinLen_short (n : Z) (s : string) (w : W) :
  len s < n ->
  MinLen n s w
  = (Returns (Some (errors.New ("minimum length is " ++ strconv.Itoa n))), w).
Proof.
  intros Hlt. unfold MinLen.
  destruct (Z.ltb_spec (len s) n) as [_ | Hge]; [| lia].
  now rewrite Errorf_minimum.
Qed.

Lemma MinLen_long (n : Z) (s : string) (w : W) :
  n <= len s -> MinLen n s w = (Returns None, w).
Proof.
  intros Hle. unfold MinLen.
  destruct (Z.ltb_spec (len s) n) as [Hlt | _]; [lia | reflexivity].
Qed.

Lemma MaxLen_long (n : Z) (s : string) (w : W) :
  len s > n ->
  MaxLen n s w
  = (Returns (Some (errors.New ("maximum length is " ++ strconv.Itoa n))), w).
Proof.
  intros Hgt. unfold MaxLen.
  rewrite Z.gtb_ltb.
  destruct (Z.ltb_spec n (len s)) as [_ | Hge]; [| lia].
  now rewrite Errorf_maximum.
Qed.

Lemma MaxLen_short (n : Z) (s : string) (w : W) :
  len s <= n -> MaxLen n s w = (Returns None, w).
Proof.
  intros Hle. unfold MaxLen.
  rewrite Z.gtb_ltb.
  destruct (Z.ltb_spec n (len s)) as [Hlt | _]; [lia | reflexivity].
Qed.

Lemma MinLen_rejects_iff (n : Z) (s : string) (w : W) :
  rejects (MinLen n) s w <-> len s < n.
Proof.
  split.
  - intros (reason & w' & Hrun).
    destruct (Z.lt_ge_cases (len s) n) as [Hlt | Hge]; [exact Hlt |].
    rewrite (MinLen_long n s w Hge) in Hrun. discriminate Hrun.
  - intros Hlt. eexists. exists w. now apply MinLen_short.
Qed.

Lemma MaxLen_rejects_iff (n : Z) (s : string) (w : W) :
  rejects (MaxLen n) s w <-> len s > n.
Proof.
  split.
  - intros (reason & w' & Hrun).
    destruct (Z.lt_ge_cases n (len s)) as [Hlt | Hge]; [lia |].
    rewrite (MaxLen_short n s w Hge) in Hrun. discriminate Hrun.
  - intros Hgt. eexists. exists w. now apply MaxLen_long.
Qed.

(** C5. For every n >= 0 and every string s, the validator [MinLen n]
    applied to s returns a failure reason if and only if [len s < n];
    the reason it then returns is the error with text
    "minimum length is n" (n in decimal), and otherwise it returns nil.
    In both cases the world is left as it was. *)
Theorem MinLen_spec (n : Z) (s : string) (w : W) :
  0 <= n ->
  (rejects (MinLen n) s w <-> len s < n)
  /\ (len s < n ->
      MinLen n s w
      = (Returns (Some (errors.New ("minimum length is " ++ strconv.Itoa n))),
         w))
  /\ (~ len s < n -> MinLen n s w = (Returns None, w)).
Proof.
  intros _. split; [apply MinLen_rejects_iff |]. split.
  - apply MinLen_short.
  - intros Hge. apply MinLen_long. lia.
Qed.

(** C6. For every n >= 0 and every string s, the validator [MaxLen n]
    applied to s returns a failure reason if and only if [len s > n];
    the reason it then returns is the error with text
    "maximum length is n" (n in decimal), and otherwise it returns nil.
    In both cases the world is left as it was. *)
Theorem MaxLen_spec (n : Z) (s : string) (w : W) :
  0 <= n ->
  (rejects (MaxLen n) s w <-> len s > n)
  /\ (len s > n ->
      MaxLen n s w
      = (Returns (Some (errors.New ("maximum length is " ++ strconv.Itoa n))),
         w))
  /\ (~ len s > n -> MaxLen n s w = (Returns None, w)).
Proof.
  intros _. split; [apply MaxLen_rejects_iff |]. split.
  - apply MaxLen_long.
  - intros Hle. apply MaxLen_short. lia.
Qed.

(** C7. The validator [NotEmpty] applied to the empty string returns the
    failure reason "value cannot be empty"; applied to any other string
    it returns nil; in both cases it returns normally and leaves the
    world as it was. *)
Theorem NotEmpty_spec (w : W) :
  NotEmpty "" w = (Returns (Some (errors.New "value cannot be empty")), w)
  /\ (forall s : string, s <> "" -> NotEmpty s w = (Returns None, w)).
Proof.
  split; [reflexivity |].
  intros s Hs. unfold NotEmpty.
  destruct (String.eqb_spec s "") as [Heq | _]; [contradiction | reflexivity].
Qed.

(** C9. For every negative n and every string s, [MinLen n] applied to s
    returns nil and [MaxLen n] applied to s returns the failure reason
    "maximum length is n"; both constructors give a validator for a
    negative n as for any other. *)
Theorem negative_length_spec (n : Z) (s : string) (w : W) :
  n < 0 ->
  MinLen n s w = (Returns None, w)
  /\ MaxLen n s w
     = (Returns (Some (errors.New ("maximum length is " ++ strconv.Itoa n))),
        w).
Proof.
  intros Hneg. pose proof (len_nonneg s) as Hlen. split.
  - apply MinLen_long. lia.
  - apply MaxLen_long. lia.
Qed.

End validators_spec.

(** A run of the three validators on concrete inputs. *)
Example MinLen_3_ab :
  MinLen 3 "ab" tt = (Returns (Some (errorString "minimum length is 3")), tt).
Proof. reflexivity. Qed.

Example MaxLen_5_abcdef :
  MaxLen 5 "abcdef" tt
  = (Returns (Some (errorString "maximum length is 5")), tt).
Proof. reflexivity. Qed.

Lemma MinLen_spec_witness :
  0 <= 3
  /\ MinLen 3 "ab" tt
     = (Returns (Some (errors.New ("minimum length is " ++ strconv.Itoa 3))), tt).
Proof.
  split; [lia |].
  apply (proj1 (proj2 (MinLen_spec 3 "ab" tt ltac:(lia)))).
  reflexivity.
Defined.

Lemma MaxLen_spec_witness :
  0 <= 5
  /\ MaxLen 5 "abcdef" tt
     = (Returns (Some (errors.New ("maximum length is " ++ strconv.Itoa 5))), tt).
Proof.
  split; [lia |].
  apply (proj1 (proj2 (MaxLen_spec 5 "abcdef" tt ltac:(lia)))).
  reflexivity.
Defined.

Lemma NotEmpty_spec_witness :
  "a" <> "" /\ NotEmpty "a" tt = (Returns None, tt).
Proof.
  split; [discriminate |].
  apply (proj2 (NotEmpty_spec tt)). discriminate.
Defined.

Lemma negative_length_spec_witness :
  -2 < 0
  /\ MinLen (-2) "" tt = (Returns None, tt)
  /\ MaxLen (-2) "" tt
     = (Returns (Some (errorString "maximum length is -2")), tt).
Proof.
  split; [lia |].
  apply (negative_length_spec (-2) "" tt). lia.
Defined.

(** ** Length in bytes and length in characters *)

Lemma len_bytes (l : list Z) : len (utf8.bytes l) = Z.of_nat (List.length l).
Proof.
  unfold len. f_equal.
  induction l as [| b l IH]; simpl; [reflexivity | now rewrite IH].
Qed.

(** A rune takes between one and four bytes, and one byte only when it is
    an ASCII character. *)
Lemma len_EncodeRune (r : Z) :
  1 <= len (utf8.EncodeRune r) <= 4
  /\ (multibyte r -> 2 <= len (utf8.EncodeRune r)).
Proof.
  unfold multibyte, utf8.EncodeRune.
  destruct (Z.leb_spec (utf8.uint32 r) utf8.rune1Max) as [H1 | H1].
  { rewrite len_bytes. simpl. lia. }
  destruct (utf8.uint32 r <=? utf8.rune2Max).
  { rewrite len_bytes. simpl. lia. }
  destruct ((utf8.MaxRune <? utf8.uint32 r)
            || ((utf8.surrogateMin <=? utf8.uint32 r)
                && (utf8.uint32 r <=? utf8.surrogateMax)))%bool.
  { rewrite len_bytes. simpl. lia. }
  destruct (utf8.uint32 r <=? utf8.rune3Max); rewrite len_bytes; simpl; lia.
Qed.

Lemma len_EncodeRunes (rs : list Z) :
  utf8.RuneCount rs <= len (utf8.EncodeRunes rs)
  /\ (Exists multibyte rs -> utf8.RuneCount rs < len (utf8.EncodeRunes rs)).
Proof.
  unfold utf8.RuneCount.
  induction rs as [| r rs [IHle IHlt]].
  - split; [simpl; unfold len; simpl; lia |].
    intros Hex. inversion Hex.
  - cbn [utf8.EncodeRunes List.length]. rewrite len_append.
    destruct (len_EncodeRune r) as [[Hone _] Htwo].
    split; [lia |].
    intros Hex. inversion Hex as [? ? Hr | ? ? Hrs]; subst.
    + specialize (Htwo Hr). lia.
    + specialize (IHlt Hrs). lia.
Qed.

Section byte_length_spec.

Context {W : Type}.

(** C10. [MinLen n] and [MaxLen n] compare n with the number of bytes of
    the string: on the UTF-8 encoding of a text of k characters they
    reject exactly when the number of bytes is below, respectively
    above, n; the number of bytes is at least k; and when the text
    holds a character of more than one byte, the number of bytes
    exceeds k, [MaxLen k] rejects the text and [MinLen (k + 1)] accepts
    it. *)
Theorem len_counts_bytes (rs : list Z) (n : Z) (w : W) :
  let s := utf8.EncodeRunes rs in
  let k := utf8.RuneCount rs in
  (rejects (MinLen n) s w <-> len s < n)
  /\ (rejects (MaxLen n) s w <-> len s > n)
  /\ k <= len s
  /\ (Exists multibyte rs ->
      k < len s
      /\ MaxLen k s w
         = (Returns
              (Some (errors.New ("maximum length is " ++ strconv.Itoa k))), w)
      /\ MinLen (k + 1) s w = (Returns None, w)).
Proof.
  intros s k.
  destruct (len_EncodeRunes rs) as [Hle Hlt]. fold s k in Hle, Hlt.
  split; [apply MinLen_rejects_iff |].
  split; [apply MaxLen_rejects_iff |].
  split; [exact Hle |].
  intros Hex. specialize (Hlt Hex).
  split; [exact Hlt |]. split.
  - apply MaxLen_long. lia.
  - apply MinLen_long. lia.
Qed.

End byte_length_spec.

(** The text "é", one character, is two bytes long. *)
Example EncodeRunes_e_acute : utf8.EncodeRunes [0xE9] = "é".
Proof. reflexivity. Qed.

Lemma len_counts_bytes_witness :
  Exists multibyte [0xE9]
  /\ len "é" = 2
  /\ MaxLen 1 "é" tt
     = (Returns (Some (errorString "maximum length is 1")), tt)
  /\ MinLen 2 "é" tt = (Returns None, tt).
Proof.
  assert (Hex : Exists multibyte [0xE9]).
  { constructor. unfold multibyte. vm_compute. reflexivity. }
  split; [exact Hex |].
  split; [reflexivity |].
  exact (proj2 (proj2 (proj2 (proj2 (len_counts_bytes [0xE9] 0 tt))) Hex)).
Defined.

(** ** The panic helpers *)

Section errors_spec.

Context {W : Type}.
Local Open Scope go_scope.

Lemma Try_returns {T : Type} `{Zero T} (fn : Go W T) (w w' : W) (r : T) :
  fn w = (Returns r, w') -> Try fn w = (Returns (r, true), w').
Proof.
  intros Hfn. unfold Try. rewrite Hfn. reflexivity.
Qed.

Lemma Try_panics {T : Type} `{Zero T} (fn : Go W T) (w w' : W) (p : any) :
  fn w = (Panics p, w') -> Try fn w = (Returns (zero, false), w').
Proof.
  intros Hfn. unfold Try. rewrite Hfn.
  unfold Try_deferred, recover. cbn.
  destruct p; reflexivity.
Qed.

(** [Try] itself never panics. *)
Lemma Try_contains {T : Type} `{Zero T} (fn : Go W T) (w : W) :
  exists value ok w', Try fn w = (Returns (value, ok), w').
Proof.
  destruct (fn w) as [[r | p] w'] eqn:Hfn.
  - exists r, true, w'. now apply Try_returns.
  - exists zero, false, w'. now apply Try_panics with p.
Qed.

(** C2. For every operation fn with results of type T: when fn returns
    r, [Try fn] returns (r, true); when fn panics, with any payload,
    [Try fn] does not panic and returns (zero value of T, false); so
    whenever [Try fn] returns ok = false, the value it returns is the
    zero value of T.  The world is the one fn left. *)
Theorem Try_spec {T : Type} `{Zero T} (fn : Go W T) (w : W) :
  (forall (r : T) (w' : W),
      fn w = (Returns r, w') -> Try fn w = (Returns (r, true), w'))
  /\ (forall (p : any) (w' : W),
      fn w = (Panics p, w') -> Try fn w = (Returns (zero, false), w'))
  /\ (forall (value : T) (w' : W),
      Try fn w = (Returns (value, false), w') -> value = zero).
Proof.
  split; [intros r w'; apply Try_returns |].
  split; [intros p w'; apply Try_panics |].
  intros value w' Htry.
  destruct (fn w) as [[r | p] w1] eqn:Hfn.
  - rewrite (Try_returns fn w w1 r Hfn) in Htry. discriminate Htry.
  - rewrite (Try_panics fn w w1 p Hfn) in Htry. now inversion Htry.
Qed.

Lemma Must_nil {T : Type} (v : T) (w : W) :
  Must v None w = (Returns v, w).
Proof. reflexivity. Qed.

Lemma Must_err {T : Type} (v : T) (e : error) (w : W) :
  Must v (Some e) w = (Panics (any_error e), w).
Proof. reflexivity. Qed.

(** C4. For every value v and optional error e: [Must v e] panics if
    and only if e is not nil, the payload is then e, and otherwise it
    returns v; [Check e] panics if and only if e is not nil, the
    payload is then e, and otherwise it returns and does nothing. *)
Theorem Must_Check_spec {T : Type} (v : T) (err : option error) (w : W) :
  ((exists p w', Must v err w = (Panics p, w')) <-> err <> None)
  /\ (forall e : error,
      err = Some e -> Must v err w = (Panics (any_error e), w))
  /\ (err = None -> Must v err w = (Returns v, w))
  /\ ((exists p w', Check err w = (Panics p, w')) <-> err <> None)
  /\ (forall e : error,
      err = Some e -> Check err w = (Panics (any_error e), w))
  /\ (err = None -> Check err w = (Returns tt, w)).
Proof.
  destruct err as [e |].
  - repeat split; try discriminate; try (intros e' [= <-]; reflexivity).
    + intros _. now exists (any_error e), w.
    + intros _. now exists (any_error e), w.
  - repeat split; try reflexivity; try discriminate; try contradiction.
    + intros (p & w' & Hrun). discriminate Hrun.
    + intros (p & w' & Hrun). discriminate Hrun.
Qed.

(** C8. For every value v, flag ok and fallback d, [Or v ok d] returns v
    when ok is true and d when ok is false; it always returns, never
    panics, and leaves the world as it was. *)
Theorem Or_spec {T : Type} (v d : T) (ok : bool) (w : W) :
  Or v true d w = (Returns v, w)
  /\ Or v false d w = (Returns d, w)
  /\ Or v ok d w = (Returns (if ok then v else d), w).
Proof.
  repeat split. destruct ok; reflexivity.
Qed.

(** C3. For every value v, optional error e and fallback d: running
    [Try] on the closure that calls [Must v e], then [Or] on its two
    results and d, returns v when e is nil and d when e is an error; the
    panic of [Must] does not leave [Try]. *)
Theorem Try_Must_Or_spec {T : Type} `{Zero T} (v d : T) (w : W) :
  (r <- Try (Must v None) ;; Or (fst r) (snd r) d) w = (Returns v, w)
  /\ (forall e : error,
      (r <- Try (Must v (Some e)) ;; Or (fst r) (snd r) d) w
      = (Returns d, w)).
Proof.
  split.
  - unfold bind. now rewrite (Try_returns _ w w v (Must_nil v w)).
  - intros e. unfold bind.
    now rewrite (Try_panics _ w w _ (Must_err v e w)).
Qed.

End errors_spec.

(** [Try] on a function that returns 42, and on one that panics. *)
Example Try_42 : Try (ret 42) tt = (Returns (42, true), tt).
Proof. reflexivity. Qed.

Example Try_divide_by_zero (w : harness.world) :
  Try harness.divide_by_zero w = (Returns (0, false), w).
Proof. reflexivity. Qed.

Lemma Try_spec_witness :
  Try (ret 42) tt = (Returns (42, true), tt)
  /\ Try (Must 42 (Some (errorString "strconv.Atoi: parsing"))) tt
     = (Returns (0, false), tt)
  /\ (0 : Z) = zero.
Proof.
  split; [| split].
  - apply (proj1 (Try_spec (ret 42) tt) 42 tt). reflexivity.
  - apply (proj1 (proj2 (Try_spec
             (Must 42 (Some (errorString "strconv.Atoi: parsing"))) tt))
             (any_error (errorString "strconv.Atoi: parsing")) tt).
    reflexivity.
  - apply (proj2 (proj2 (Try_spec
             (Must 42 (Some (errorString "strconv.Atoi: parsing"))) tt))
             0 tt).
    reflexivity.
Defined.

Lemma Must_Check_spec_witness :
  Must 7 (Some (errorString "boom")) tt
  = (Panics (any_error (errorString "boom")), tt)
  /\ Must 7 None tt = (Returns 7, tt)
  /\ Check (Some (errorString "boom")) tt
     = (Panics (any_error (errorString "boom")), tt)
  /\ Check None tt = (Returns tt, tt).
Proof.
  pose proof (Must_Check_spec 7 (Some (errorString "boom")) tt) as Herr.
  pose proof (Must_Check_spec 7 None tt) as Hnil.
  split; [| split; [| split]].
  - apply (proj1 (proj2 Herr)). reflexivity.
  - apply (proj1 (proj2 (proj2 Hnil))). reflexivity.
  - apply (proj1 (proj2 (proj2 (proj2 (proj2 Herr))))). reflexivity.
  - apply (proj2 (proj2 (proj2 (proj2 (proj2 Hnil))))). reflexivity.
Defined.

(** ** The validator chain of Input *)

Section input_spec.

Context {W : Type}.
Variable Print : string -> Go W unit.
Variable Scan : Go W scanned.
Variable TrimSpace : string -> string.

(** The validators that returned nil are behind: the loop goes on with
    the rest, in the world they left. *)
Lemma Input_range_passes (input : string) (pre rest : list (Validator W))
  (w w1 : W) :
  passes input pre w w1 ->
  Input_range (pre ++ rest)%list input w = Input_range rest input w1.
Proof.
  intros Hpass. induction Hpass as [w | validate pre w w1 w2 Hrun _ IH].
  - reflexivity.
  - cbn [app Input_range]. unfold bind at 1. rewrite Hrun. exact IH.
Qed.

(** At a validator that returns a failure reason the loop panics, and
    the validators after it play no part. *)
Lemma Input_range_rejects (input : string) (validate : Validator W)
  (post : list (Validator W)) (reason : error) (w1 w2 : W) :
  validate input w1 = (Returns (Some reason), w2) ->
  Input_range (validate :: post) input w1
  = (Panics (any_error (invalid_string_input reason)), w2).
Proof.
  intros Hrun. cbn [Input_range]. unfold bind. rewrite Hrun.
  now rewrite Errorf_invalid_string_input.
Qed.

(** C1. For every list of validators and every input string that
    [inputRaw] returns: [Input] calls the validators in the order of
    the list, each in the world the one before it left.  At the first
    one that returns a failure reason, [Input] panics with the error
    that wraps the reason under the text
    "invalid string input: " followed by the text of the reason, in the
    world that validator left, whatever the validators after it are.
    When every validator returns nil, [Input] returns the input string
    as [inputRaw] gave it. *)
Theorem Input_spec (prompt : string) (validators : list (Validator W))
  (input : string) (w0 w : W) :
  inputRaw Print Scan TrimSpace prompt w0 = (Returns input, w) ->
  (forall (pre post : list (Validator W)) (validate : Validator W)
          (reason : error) (w1 w2 : W),
      validators = (pre ++ validate :: post)%list ->
      passes input pre w w1 ->
      validate input w1 = (Returns (Some reason), w2) ->
      Input Print Scan TrimSpace prompt validators w0
      = (Panics (any_error (invalid_string_input reason)), w2)
        /\ Error (invalid_string_input reason)
           = "invalid string input: " ++ Error reason
        /\ Unwrap (invalid_string_input reason) = Some reason)
  /\ (forall w' : W,
      passes input validators w w' ->
      Input Print Scan TrimSpace prompt validators w0 = (Returns input, w')).
Proof.
  intros Hraw. split.
  - intros pre post validate reason w1 w2 -> Hpass Hrun.
    split; [| split; reflexivity].
    unfold Input, bind. rewrite Hraw.
    rewrite (Input_range_passes input pre (validate :: post) w w1 Hpass).
    now apply Input_range_rejects.
  - intros w' Hpass.
    unfold Input, bind. rewrite Hraw.
    rewrite <- (app_nil_r validators).
    now rewrite (Input_range_passes input validators [] w w' Hpass).
Qed.

End input_spec.

(** Runs of [Input] in the example world. *)
Example Input_ab :
  Input_harness "name: " chain (typed "  ab ")
  = (Panics (any_error
       (wrapError "invalid string input: minimum length is 3"
          (errorString "minimum length is 3"))),
     harness.mkWorld [] "name: " 0).
Proof. reflexivity. Qed.

Example Input_abcd :
  Input_harness "name: " chain (typed " abcd  ")
  = (Returns "abcd", harness.mkWorld [] "name: " 1).
Proof. reflexivity. Qed.

Example Input_abcdef :
  Input_harness "name: " chain (typed "abcdef")
  = (Panics (any_error
       (wrapError "invalid string input: maximum length is 5"
          (errorString "maximum length is 5"))),
     harness.mkWorld [] "name: " 1).
Proof. reflexivity. Qed.

(** Two validators that both reject: the reason of the first one comes
    out, and the counter of the second one stays at zero. *)
Example Input_first_reason_only :
  Input_harness "" [MinLen 3; harness.counting NotEmpty] (typed "")
  = (Panics (any_error
       (wrapError "invalid string input: minimum length is 3"
          (errorString "minimum length is 3"))),
     harness.mkWorld [] "" 0).
Proof. reflexivity. Qed.

Lemma Input_spec_witness :
  Input_harness "name: " chain (typed "  ab ")
  = (Panics (any_error
       (invalid_string_input (errorString "minimum length is 3"))),
     harness.mkWorld [] "name: " 0)
  /\ Input_harness "name: " chain (typed " abcd  ")
     = (Returns "abcd", harness.mkWorld [] "name: " 1).
Proof.
  split.
  - refine (proj1 (proj1 (Input_spec harness.Print harness.Scan
                            harness.TrimSpace "name: " chain "ab"
                            (typed "  ab ") (harness.mkWorld [] "name: " 0)
                            eq_refl)
                     [NotEmpty] [harness.counting (MaxLen 5)] (MinLen 3)
                     (errorString "minimum length is 3")
                     (harness.mkWorld [] "name: " 0)
                     (harness.mkWorld [] "name: " 0)
                     eq_refl _ eq_refl)).
    eapply passes_cons; [reflexivity | apply passes_nil].
  - refine (proj2 (Input_spec harness.Print harness.Scan
                     harness.TrimSpace "name: " chain "abcd"
                     (typed " abcd  ") (harness.mkWorld [] "name: " 0)
                     eq_refl)
              (harness.mkWorld [] "name: " 1) _).
    eapply passes_cons; [reflexivity |].
    eapply passes_cons; [reflexivity |].
    eapply passes_cons; [reflexivity |].
    apply passes_nil.
Defined.

(** ** Decimal conversions *)

Lemma decimal_value_le (d : Decimal.uint) (acc : Z) :
  0 <= acc -> acc <= decimal_value d acc.
Proof.
  revert acc. induction d as [| d IH | d IH | d IH | d IH | d IH | d IH
                               | d IH | d IH | d IH | d IH];
    intros acc Hacc; cbn [decimal_value]; [lia | ..];
    (etransitivity; [| apply IH]; lia).
Qed.

Lemma decimal_value_pos (d : Decimal.uint) (acc : positive) :
  decimal_value d (Z.pos acc) = Z.pos (Pos.of_uint_acc d acc).
Proof.
  revert acc. induction d as [| d IH | d IH | d IH | d IH | d IH | d IH
                               | d IH | d IH | d IH | d IH];
    intros acc; cbn [decimal_value Pos.of_uint_acc]; [reflexivity | ..];
    (etransitivity; [| apply IH]); f_equal; lia.
Qed.

Lemma decimal_value_of_uint (d : Decimal.uint) :
  decimal_value d 0 = Z.of_N (Pos.of_uint d).
Proof.
  induction d as [| d IH | d IH | d IH | d IH | d IH | d IH
                   | d IH | d IH | d IH | d IH];
    cbn [decimal_value Pos.of_uint]; [reflexivity | exact IH | ..];
    apply (decimal_value_pos d).
Qed.

Lemma decimal_value_to_uint (p : positive) :
  decimal_value (Pos.to_uint p) 0 = Z.pos p.
Proof.
  rewrite decimal_value_of_uint, Unsigned.of_to. reflexivity.
Qed.

Lemma ParseUint_digits_step (c : ascii) (k : Z) (s : string) (n : Z) :
  Z.of_N (N_of_ascii c) - 48 = k ->
  0 <= k <= 9 ->
  0 <= n ->
  n * 10 + k <= strconv.maxUint64 ->
  strconv.ParseUint_digits (String c s) n
  = strconv.ParseUint_digits s (n * 10 + k).
Proof.
  intros Hk Hdigit Hn Hmax. cbn [strconv.ParseUint_digits]. rewrite Hk.
  change (strconv.maxUint64 / 10 + 1) with 1844674407370955162.
  unfold strconv.maxUint64 in *.
  destruct (Z.ltb_spec k 0); [lia |].
  destruct (Z.ltb_spec 9 k); [lia |]. cbn [orb].
  destruct (Z.leb_spec 1844674407370955162 n); [lia |].
  destruct (Z.ltb_spec (2 ^ 64 - 1) (n * 10 + k)); [lia | reflexivity].
Qed.

Lemma ParseUint_digits_decimal (d : Decimal.uint) (n : Z) :
  0 <= n ->
  decimal_value d n <= strconv.maxUint64 ->
  strconv.ParseUint_digits (NilEmpty.string_of_uint d) n
  = (decimal_value d n, None).
Proof.
  revert n. induction d as [| d IH | d IH | d IH | d IH | d IH | d IH
                             | d IH | d IH | d IH | d IH];
    intros n Hn Hmax; cbn [NilEmpty.string_of_uint decimal_value] in *;
    [reflexivity | ..];
    (erewrite ParseUint_digits_step;
     [apply IH; [lia | exact Hmax]
     | reflexivity
     | lia
     | exact Hn
     | etransitivity; [apply decimal_value_le; lia | exact Hmax]]).
Qed.

(** The digits of a positive number, as [Itoa] writes them, are read back
    by [ParseUint]. *)
Lemma ParseUint_to_uint (p : positive) :
  Z.pos p <= strconv.maxUint64 ->
  strconv.ParseUint (NilEmpty.string_of_uint (Pos.to_uint p))
  = (Z.pos p, None).
Proof.
  intros Hmax.
  pose proof (ParseUint_digits_decimal (Pos.to_uint p) 0) as Hdigits.
  rewrite decimal_value_to_uint in Hdigits.
  specialize (Hdigits ltac:(lia) Hmax).
  pose proof (Unsigned.to_uint_nonnil p) as Hnil.
  unfold strconv.ParseUint.
  destruct (Pos.to_uint p); [contradiction | ..]; exact Hdigits.
Qed.

Lemma string_of_uint_to_uint (p : positive) :
  NilZero.string_of_uint (Pos.to_uint p)
  = NilEmpty.string_of_uint (Pos.to_uint p).
Proof.
  pose proof (Unsigned.to_uint_nonnil p) as Hnil.
  destruct (Pos.to_uint p); [contradiction | ..]; reflexivity.
Qed.

(** The first byte of the digits of a number is a digit: neither a sign
    nor the end of the string. *)
Lemma string_of_uint_head (d : Decimal.uint) :
  d <> Decimal.Nil ->
  exists c s,
    NilEmpty.string_of_uint d = String c s
    /\ Ascii.eqb c "-" = false /\ Ascii.eqb c "+" = false.
Proof.
  intros Hnil. destruct d; [contradiction | ..]; cbn;
    eexists; eexists; repeat split.
Qed.

(** [Atoi] reads back what [Itoa] writes, for every [int]. *)
Lemma Atoi_Itoa (n : Z) :
  minInt <= n <= maxInt -> strconv.Atoi (strconv.Itoa n) = (n, None).
Proof.
  unfold minInt, maxInt. intros Hrange.
  unfold strconv.Atoi, strconv.Itoa.
  destruct n as [| p | p]; [reflexivity | |];
    cbn [Z.to_int NilZero.string_of_int]; rewrite string_of_uint_to_uint.
  - destruct (string_of_uint_head (Pos.to_uint p)
                (Unsigned.to_uint_nonnil p)) as (c & s & Hs & Hminus & Hplus).
    pose proof (ParseUint_to_uint p) as Hparse. rewrite Hs in Hparse.
    unfold strconv.ParseInt. rewrite Hs, Hminus, Hplus. cbn [orb].
    rewrite Hparse by (unfold strconv.maxUint64; lia).
    cbn [negb andb].
    destruct (Z.leb_spec (2 ^ 63) (Z.pos p)); [lia | reflexivity].
  - unfold strconv.ParseInt.
    change (Ascii.eqb "-" "-") with true.
    change (Ascii.eqb "-" "+") with false. cbn [orb].
    rewrite ParseUint_to_uint by (unfold strconv.maxUint64; lia).
    cbn [negb andb].
    destruct (Z.ltb_spec (2 ^ 63) (Z.pos p)); [lia | reflexivity].
Qed.

Lemma Itoa_not_empty (n : Z) : strconv.Itoa n <> "".
Proof.
  unfold strconv.Itoa.
  destruct n as [| p | p]; cbn [Z.to_int NilZero.string_of_int];
    try discriminate.
  rewrite string_of_uint_to_uint.
  destruct (string_of_uint_head (Pos.to_uint p) (Unsigned.to_uint_nonnil p))
    as (c & s & Hs & _). rewrite Hs. discriminate.
Qed.

(** ** The environment *)

Lemma lookup_store_same (env : list (string * string)) (key value : string) :
  os.lookup (os.store env key value) key = Some value.
Proof.
  induction env as [| [k v] env IH]; cbn [os.store os.lookup].
  - now rewrite String.eqb_refl.
  - destruct (String.eqb_spec k key) as [-> | Hne]; cbn [os.lookup].
    + now rewrite String.eqb_refl.
    + destruct (String.eqb_spec k key); [contradiction | exact IH].
Qed.

Lemma lookup_store_other (env : list (string * string))
  (key value other : string) :
  other <> key ->
  os.lookup (os.store env key value) other = os.lookup env other.
Proof.
  intros Hne. induction env as [| [k v] env IH]; cbn [os.store os.lookup].
  - destruct (String.eqb_spec key other); [congruence | reflexivity].
  - destruct (String.eqb_spec k key) as [-> | Hk]; cbn [os.lookup].
    + destruct (String.eqb_spec key other); [congruence | reflexivity].
    + now rewrite IH.
Qed.

Lemma LookupEnv_found (w : os.process) (key value : string) :
  key <> "" ->
  os.lookup (os.environ w) key = Some value ->
  os.LookupEnv key w = (Returns (value, true), w).
Proof.
  intros Hkey Hfound. unfold os.LookupEnv.
  destruct (String.eqb_spec key ""); [contradiction |].
  now rewrite Hfound.
Qed.

Lemma LookupEnv_missing (w : os.process) (key : string) :
  key = "" \/ os.lookup (os.environ w) key = None ->
  os.LookupEnv key w = (Returns ("", false), w).
Proof.
  intros Hmissing. unfold os.LookupEnv.
  destruct (String.eqb_spec key ""); [reflexivity |].
  destruct Hmissing as [-> | ->]; [contradiction | reflexivity].
Qed.

(** [LookupEnv] always returns, finds nothing but what is set, and leaves
    the process alone. *)
Lemma LookupEnv_cases (w : os.process) (key : string) :
  (exists value,
      key <> "" /\ os.lookup (os.environ w) key = Some value
      /\ os.LookupEnv key w = (Returns (value, true), w))
  \/ ((key = "" \/ os.lookup (os.environ w) key = None)
      /\ os.LookupEnv key w = (Returns ("", false), w)).
Proof.
  destruct (String.eqb_spec key "") as [-> | Hkey].
  - right. split; [now left | reflexivity].
  - destruct (os.lookup (os.environ w) key) as [value |] eqn:Hfound.
    + left. exists value. repeat split; try assumption.
      now apply LookupEnv_found.
    + right. split; [now right |]. apply LookupEnv_missing. now right.
Qed.

Lemma refused_empty_key (value : string) : os.refused "" value = true.
Proof. reflexivity. Qed.

(** The texts of the panics of env.go. *)
Lemma Errorf_cannot_open (path : string) :
  fmt.Errorf "cannot open env file: %s" [fmt.string_arg path]
  = errors.New ("cannot open env file: " ++ path).
Proof. unfold fmt.Errorf. cbn. now rewrite append_empty_r. Qed.

Lemma Errorf_failed_to_set (key : string) :
  fmt.Errorf "failed to set env %s" [fmt.string_arg key]
  = errors.New ("failed to set env " ++ key).
Proof. unfold fmt.Errorf. cbn. now rewrite append_empty_r. Qed.

Lemma Errorf_missing (key : string) :
  fmt.Errorf "missing env var: %s" [fmt.string_arg key]
  = errors.New ("missing env var: " ++ key).
Proof. unfold fmt.Errorf. cbn. now rewrite append_empty_r. Qed.

Lemma Errorf_required (key : string) :
  fmt.Errorf "required env var missing: %s" [fmt.string_arg key]
  = errors.New ("required env var missing: " ++ key).
Proof. unfold fmt.Errorf. cbn. now rewrite append_empty_r. Qed.

Lemma Errorf_invalid_line (Quote : string -> string) (line : string) :
  fmt.Errorf_with Quote "invalid env line: %q" [fmt.string_arg line]
  = errors.New ("invalid env line: " ++ Quote line).
Proof. unfold fmt.Errorf_with. cbn. now rewrite append_empty_r. Qed.

Lemma Errorf_invalid_integer (Quote : string -> string) (input : string) :
  fmt.Errorf_with Quote "invalid integer input: %q" [fmt.string_arg input]
  = errors.New ("invalid integer input: " ++ Quote input).
Proof. unfold fmt.Errorf_with. cbn. now rewrite append_empty_r. Qed.

Lemma Errorf_invalid_int_env (Quote : string -> string) (key value : string) :
  fmt.Errorf_with Quote "invalid int env var %s=%q"
    [fmt.string_arg key; fmt.string_arg value]
  = errors.New ("invalid int env var " ++ key ++ "=" ++ Quote value).
Proof. unfold fmt.Errorf_with. cbn. now rewrite append_empty_r. Qed.

Lemma Errorf_invalid_bool_env (Quote : string -> string) (key value : string) :
  fmt.Errorf_with Quote "invalid bool env var %s=%q"
    [fmt.string_arg key; fmt.string_arg value]
  = errors.New ("invalid bool env var " ++ key ++ "=" ++ Quote value).
Proof. unfold fmt.Errorf_with. cbn. now rewrite append_empty_r. Qed.

(** ** EnvFile *)

Section env_file_spec.

Variable TrimSpace : string -> string.
Variable Quote : string -> string.

#[local] Abbreviation scan := (EnvFile_scan TrimSpace Quote).
#[local] Abbreviation read := (read_env_line TrimSpace).

Lemma scan_skip (text : string) (rest : list string) (w : os.process) :
  read text = env_skip -> scan (text :: rest) w = scan rest w.
Proof.
  unfold read_env_line. intros Hread. cbn [EnvFile_scan].
  destruct (String.eqb (TrimSpace text) ""
            || strings.HasPrefix (TrimSpace text) "#"); [reflexivity |].
  destruct (strings.Cut (TrimSpace text) "=") as [[k v] [|]];
    discriminate Hread.
Qed.

Lemma scan_invalid (text line : string) (rest : list string)
  (w : os.process) :
  read text = env_invalid line ->
  scan (text :: rest) w
  = (Panics (any_error (errors.New ("invalid env line: " ++ Quote line))), w).
Proof.
  unfold read_env_line. intros Hread. cbn [EnvFile_scan].
  destruct (String.eqb (TrimSpace text) ""
            || strings.HasPrefix (TrimSpace text) "#"); [discriminate Hread |].
  destruct (strings.Cut (TrimSpace text) "=") as [[k v] [|]];
    [discriminate Hread |].
  injection Hread as <-. cbn [negb].
  now rewrite Errorf_invalid_line.
Qed.

Lemma scan_assign (text key value : string) (rest : list string)
  (w : os.process) :
  read text = env_assign key value ->
  scan (text :: rest) w
  = bind (os.LookupEnv key)
      (fun r =>
         if snd r then scan rest
         else
           bind (os.Setenv key value)
             (fun err =>
                match err with
                | Some _ =>
                    panic (any_error
                             (errors.New ("failed to set env " ++ key)))
                | None => scan rest
                end)) w.
Proof.
  unfold read_env_line. intros Hread. cbn [EnvFile_scan].
  destruct (String.eqb (TrimSpace text) ""
            || strings.HasPrefix (TrimSpace text) "#"); [discriminate Hread |].
  destruct (strings.Cut (TrimSpace text) "=") as [[k v] [|]];
    [| discriminate Hread].
  injection Hread as <- <-. cbn [negb].
  now rewrite Errorf_failed_to_set.
Qed.

Lemma scan_assign_set (text key value : string) (rest : list string)
  (w : os.process) :
  read text = env_assign key value ->
  is_set w key ->
  scan (text :: rest) w = scan rest w.
Proof.
  intros Hread [Hkey Hfound]. rewrite (scan_assign _ _ _ _ _ Hread).
  destruct (os.lookup (os.environ w) key) as [old |] eqn:Hold;
    [| contradiction].
  unfold bind at 1. now rewrite (LookupEnv_found w key old Hkey Hold).
Qed.

Lemma scan_assign_store (text key value : string) (rest : list string)
  (w : os.process) :
  read text = env_assign key value ->
  os.lookup (os.environ w) key = None ->
  os.refused key value = false ->
  scan (text :: rest) w
  = scan rest (os.mkProcess (os.store (os.environ w) key value) (os.files w)).
Proof.
  intros Hread Hnone Hvalid. rewrite (scan_assign _ _ _ _ _ Hread).
  unfold bind at 1. rewrite (LookupEnv_missing w key (or_intror Hnone)).
  cbn [snd]. unfold bind, os.Setenv. now rewrite Hvalid.
Qed.

Lemma scan_assign_refused (text key value : string) (rest : list string)
  (w : os.process) :
  read text = env_assign key value ->
  key = "" \/ os.lookup (os.environ w) key = None ->
  os.refused key value = true ->
  scan (text :: rest) w
  = (Panics (any_error (errors.New ("failed to set env " ++ key))), w).
Proof.
  intros Hread Hmissing Hrefused. rewrite (scan_assign _ _ _ _ _ Hread).
  unfold bind at 1. rewrite (LookupEnv_missing w key Hmissing).
  cbn [snd]. unfold bind, os.Setenv. now rewrite Hrefused.
Qed.

(** The cases of one line, whatever the lines after it: it is passed
    over, it panics, or it sets a variable that was not set. *)
Lemma scan_cases (text : string) (w : os.process) :
  (forall rest, scan (text :: rest) w = scan rest w)
  \/ (exists p, forall rest, scan (text :: rest) w = (Panics p, w))
  \/ (exists key value,
        read text = env_assign key value
        /\ key <> ""
        /\ os.lookup (os.environ w) key = None
        /\ os.refused key value = false
        /\ forall rest,
            scan (text :: rest) w
            = scan rest (os.mkProcess (os.store (os.environ w) key value)
                           (os.files w))).
Proof.
  destruct (read text) as [| line | key value] eqn:Hread.
  - left. intros rest. now apply scan_skip.
  - right. left. eexists. intros rest. apply (scan_invalid _ _ _ _ Hread).
  - destruct (String.eqb_spec key "") as [-> | Hkey].
    + right. left. eexists. intros rest.
      apply (scan_assign_refused _ _ _ _ _ Hread); [now left | reflexivity].
    + destruct (os.lookup (os.environ w) key) as [old |] eqn:Hold.
      * left. intros rest. apply (scan_assign_set _ _ _ _ _ Hread).
        split; [exact Hkey | congruence].
      * destruct (os.refused key value) eqn:Hrefused.
        -- right. left. eexists. intros rest.
           apply (scan_assign_refused _ _ _ _ _ Hread);
             [now right | exact Hrefused].
        -- right. right. exists key, value.
           split; [reflexivity |]. split; [exact Hkey |].
           split; [exact Hold |]. split; [exact Hrefused |].
           intros rest. now apply (scan_assign_store _ _ _ _ _ Hread).
Qed.

Lemma scan_keeps (lines : list string) (w : os.process) (key value : string) :
  os.lookup (os.environ w) key = Some value ->
  os.lookup (os.environ (snd (scan lines w))) key = Some value.
Proof.
  revert w. induction lines as [| text rest IH]; intros w Hfound.
  - exact Hfound.
  - destruct (scan_cases text w)
      as [Heq | [(p & Heq) | (k & v & _ & _ & Hnone & _ & Heq)]];
      rewrite Heq.
    + now apply IH.
    + exact Hfound.
    + apply IH. cbn [os.environ].
      rewrite lookup_store_other; [exact Hfound | congruence].
Qed.

Lemma scan_files (lines : list string) (w : os.process) :
  os.files (snd (scan lines w)) = os.files w.
Proof.
  revert w. induction lines as [| text rest IH]; intros w.
  - reflexivity.
  - destruct (scan_cases text w)
      as [Heq | [(p & Heq) | (k & v & _ & _ & _ & _ & Heq)]];
      rewrite Heq.
    + apply IH.
    + reflexivity.
    + now rewrite IH.
Qed.

Lemma scan_keeps_set (lines : list string) (w w' : os.process)
  (o : outcome unit) (key : string) :
  scan lines w = (o, w') -> is_set w key -> is_set w' key.
Proof.
  intros Hscan [Hkey Hfound]. split; [exact Hkey |].
  destruct (os.lookup (os.environ w) key) as [old |] eqn:Hold;
    [| contradiction].
  pose proof (scan_keeps lines w key old Hold) as Hkeeps.
  rewrite Hscan in Hkeeps. cbn [snd] in Hkeeps. congruence.
Qed.

Lemma scan_app (pre rest : list string) (w w1 : os.process) :
  scan pre w = (Returns tt, w1) ->
  scan (pre ++ rest) w = scan rest w1.
Proof.
  revert w. induction pre as [| text pre IH]; intros w Hpre.
  - cbn in Hpre. injection Hpre as <-. reflexivity.
  - cbn [app].
    destruct (scan_cases text w)
      as [Heq | [(p & Heq) | (k & v & _ & _ & _ & _ & Heq)]];
      rewrite Heq in *.
    + now apply IH.
    + discriminate Hpre.
    + now apply IH.
Qed.

Lemma scan_sets (lines : list string) (w w' : os.process)
  (text key value : string) :
  scan lines w = (Returns tt, w') ->
  In text lines ->
  read text = env_assign key value ->
  is_set w' key.
Proof.
  revert w. induction lines as [| line rest IH]; intros w Hscan Hin Hread.
  - contradiction.
  - destruct Hin as [-> | Hin].
    + destruct (String.eqb_spec key "") as [-> | Hkey].
      { rewrite (scan_assign_refused _ _ _ _ _ Hread) in Hscan;
          [discriminate Hscan | now left | reflexivity]. }
      destruct (os.lookup (os.environ w) key) as [old |] eqn:Hold.
      * assert (Hset : is_set w key) by (split; congruence).
        rewrite (scan_assign_set _ _ _ _ _ Hread Hset) in Hscan.
        exact (scan_keeps_set _ _ _ _ _ Hscan Hset).
      * destruct (os.refused key value) eqn:Hrefused.
        { rewrite (scan_assign_refused _ _ _ _ _ Hread) in Hscan;
            [discriminate Hscan | now right | exact Hrefused]. }
        rewrite (scan_assign_store _ _ _ _ _ Hread Hold Hrefused) in Hscan.
        apply (scan_keeps_set _ _ _ _ _ Hscan).
        split; [exact Hkey |]. cbn [os.environ].
        rewrite lookup_store_same. discriminate.
    + destruct (scan_cases line w)
        as [Heq | [(p & Heq) | (k & v & _ & _ & _ & _ & Heq)]];
        rewrite Heq in Hscan.
      * exact (IH _ Hscan Hin Hread).
      * discriminate Hscan.
      * exact (IH _ Hscan Hin Hread).
Qed.

Lemma scan_no_invalid (lines : list string) (w w' : os.process)
  (text line : string) :
  scan lines w = (Returns tt, w') ->
  In text lines ->
  read text <> env_invalid line.
Proof.
  revert w. induction lines as [| first rest IH]; intros w Hscan Hin Hread.
  - contradiction.
  - destruct Hin as [-> | Hin].
    + rewrite (scan_invalid _ _ _ _ Hread) in Hscan. discriminate Hscan.
    + destruct (scan_cases first w)
        as [Heq | [(p & Heq) | (k & v & _ & _ & _ & _ & Heq)]];
        rewrite Heq in Hscan.
      * exact (IH _ Hscan Hin Hread).
      * discriminate Hscan.
      * exact (IH _ Hscan Hin Hread).
Qed.

(** Lines that only assign variables that are set change nothing. *)
Lemma scan_all_set (lines : list string) (w : os.process) :
  (forall text key value,
      In text lines -> read text = env_assign key value -> is_set w key) ->
  (forall text line, In text lines -> read text <> env_invalid line) ->
  scan lines w = (Returns tt, w).
Proof.
  induction lines as [| first rest IH]; intros Hset Hvalid.
  - reflexivity.
  - assert (Hrest : scan rest w = (Returns tt, w)).
    { apply IH.
      - intros text key value Hin. apply Hset. now right.
      - intros text line Hin. apply Hvalid. now right. }
    destruct (read first) as [| line | key value] eqn:Hread.
    + now rewrite (scan_skip _ _ _ Hread).
    + exfalso. apply (Hvalid first line); [now left | exact Hread].
    + rewrite (scan_assign_set _ _ _ _ _ Hread); [exact Hrest |].
      apply (Hset first key value); [now left | exact Hread].
Qed.

(** What [EnvFile] does to the process is what its loop does. *)
Lemma EnvFile_world (path : string) (w : os.process) :
  snd (EnvFile TrimSpace Quote path w)
  = match os.files w path with
    | Some file => snd (scan (os.lines file) w)
    | None => w
    end.
Proof.
  unfold EnvFile. destruct (os.files w path) as [file |]; [| reflexivity].
  unfold bind.
  destruct (scan (os.lines file) w) as [[[] | p] w1]; [| reflexivity].
  destruct (os.scan_err file); reflexivity.
Qed.

Lemma EnvFile_returns (path : string) (w w' : os.process) :
  EnvFile TrimSpace Quote path w = (Returns tt, w') ->
  exists lines,
    os.files w path = Some (os.mkFile lines None)
    /\ scan lines w = (Returns tt, w').
Proof.
  unfold EnvFile. intros Hrun.
  destruct (os.files w path) as [[lines err] |]; [| discriminate Hrun].
  exists lines. unfold bind in Hrun. cbn [os.lines os.scan_err] in Hrun.
  destruct (scan lines w) as [[[] | p] w1]; [| discriminate Hrun].
  destruct err; [discriminate Hrun |].
  injection Hrun as <-. now split.
Qed.

(** Without an equals sign [Cut] finds nothing. *)
Lemma Cut_no_equals (s : string) :
  os.has_byte s "=" = false -> strings.Cut s "=" = (s, "", false).
Proof.
  induction s as [| c s IH]; intros Hnone; [reflexivity |].
  cbn [os.has_byte] in Hnone. apply orb_false_elim in Hnone as [Hc Hs].
  cbn [strings.Cut strings.HasPrefix]. rewrite Hc. cbn [andb].
  now rewrite (IH Hs).
Qed.

Lemma read_no_equals (text : string) :
  TrimSpace text <> "" ->
  strings.HasPrefix (TrimSpace text) "#" = false ->
  os.has_byte (TrimSpace text) "=" = false ->
  read text = env_invalid (TrimSpace text).
Proof.
  intros Hblank Hcomment Hnone. unfold read_env_line.
  destruct (String.eqb_spec (TrimSpace text) ""); [contradiction |].
  rewrite Hcomment. cbn [orb]. now rewrite (Cut_no_equals _ Hnone).
Qed.

(** X1. [EnvFile] never changes a variable that is set: whatever the file
    holds, and whether [EnvFile] returns or panics on the way, every
    variable that had a value before has the same value after. *)
Theorem EnvFile_keeps_existing (path : string) (w : os.process)
  (key value : string) :
  os.lookup (os.environ w) key = Some value ->
  os.lookup (os.environ (snd (EnvFile TrimSpace Quote path w))) key
  = Some value.
Proof.
  intros Hfound. rewrite EnvFile_world.
  destruct (os.files w path) as [file |]; [| exact Hfound].
  now apply scan_keeps.
Qed.

(** X2. When [EnvFile] returns, every key that a line of the file assigns
    is set in the environment. *)
Theorem EnvFile_sets_every_key (path : string) (w w' : os.process)
  (file : os.file) (text key value : string) :
  EnvFile TrimSpace Quote path w = (Returns tt, w') ->
  os.files w path = Some file ->
  In text (os.lines file) ->
  read text = env_assign key value ->
  is_set w' key.
Proof.
  intros Hrun Hfile Hin Hread.
  destruct (EnvFile_returns _ _ _ Hrun) as (lines & Hlines & Hscan).
  rewrite Hfile in Hlines. injection Hlines as ->.
  exact (scan_sets _ _ _ _ _ _ Hscan Hin Hread).
Qed.

(** X3. The first assignment wins: when the lines before a line are read
    without panic and leave its key unset, and [os.Setenv] accepts the
    key and the value, the key has that value once [EnvFile] is over,
    whatever the lines after it hold and even if one of them panics. *)
Theorem EnvFile_first_assignment (path : string) (w w1 : os.process)
  (pre rest : list string) (err : option error) (text key value : string) :
  os.files w path = Some (os.mkFile (pre ++ text :: rest) err) ->
  scan pre w = (Returns tt, w1) ->
  read text = env_assign key value ->
  os.lookup (os.environ w1) key = None ->
  os.refused key value = false ->
  os.lookup (os.environ (snd (EnvFile TrimSpace Quote path w))) key
  = Some value.
Proof.
  intros Hfile Hpre Hread Hnone Hvalid.
  rewrite EnvFile_world, Hfile. cbn [os.lines].
  rewrite (scan_app pre (text :: rest) w w1 Hpre).
  rewrite (scan_assign_store _ _ _ _ _ Hread Hnone Hvalid).
  apply scan_keeps. cbn [os.environ]. apply lookup_store_same.
Qed.

(** X4. [EnvFile] is idempotent: when it returns, running it again on
    the same path returns and changes nothing. *)
Theorem EnvFile_idempotent (path : string) (w w' : os.process) :
  EnvFile TrimSpace Quote path w = (Returns tt, w') ->
  EnvFile TrimSpace Quote path w' = (Returns tt, w').
Proof.
  intros Hrun.
  destruct (EnvFile_returns _ _ _ Hrun) as (lines & Hfile & Hscan).
  pose proof (scan_files lines w) as Hfiles.
  rewrite Hscan in Hfiles. cbn [snd] in Hfiles.
  unfold EnvFile. rewrite Hfiles, Hfile. cbn [os.lines os.scan_err].
  unfold bind. rewrite scan_all_set; [reflexivity | |].
  - intros text key value Hin Hread.
    exact (scan_sets _ _ _ _ _ _ Hscan Hin Hread).
  - intros text line Hin.
    exact (scan_no_invalid _ _ _ _ _ Hscan Hin).
Qed.

(** X5. A line without equals sign that is neither blank nor a comment
    makes [EnvFile] panic with the text "invalid env line: " and the
    quoted line; the lines before it have taken effect and stay in
    effect. *)
Theorem EnvFile_invalid_line (path : string) (w w1 : os.process)
  (pre rest : list string) (err : option error) (text : string) :
  os.files w path = Some (os.mkFile (pre ++ text :: rest) err) ->
  scan pre w = (Returns tt, w1) ->
  TrimSpace text <> "" ->
  strings.HasPrefix (TrimSpace text) "#" = false ->
  os.has_byte (TrimSpace text) "=" = false ->
  EnvFile TrimSpace Quote path w
  = (Panics (any_error
       (errors.New ("invalid env line: " ++ Quote (TrimSpace text)))), w1).
Proof.
  intros Hfile Hpre Hblank Hcomment Hnone.
  unfold EnvFile. rewrite Hfile. cbn [os.lines os.scan_err].
  unfold bind. rewrite (scan_app pre (text :: rest) w w1 Hpre).
  now rewrite (scan_invalid _ _ _ _ (read_no_equals _ Hblank Hcomment Hnone)).
Qed.

End env_file_spec.

(** ** The typed accessors of the environment *)

Lemma lower_idempotent (c : ascii) : strings.lower (strings.lower c) = strings.lower c.
Proof. destruct c as [[] [] [] [] [] [] [] []]; reflexivity. Qed.

Lemma lower_ascii (c : ascii) :
  (N_of_ascii c <? 128)%N = true ->
  (N_of_ascii (strings.lower c) <? 128)%N = true.
Proof. destruct c as [[] [] [] [] [] [] [] []]; intros H; (exact H || reflexivity). Qed.

Lemma ToLower_lowered (unicode : string -> string) (s : string) :
  strings.isASCII s = true ->
  strings.ToLower unicode (strings.map_bytes strings.lower s)
  = strings.ToLower unicode s.
Proof.
  intros Hascii. unfold strings.ToLower. rewrite Hascii.
  assert (Hboth : strings.isASCII (strings.map_bytes strings.lower s) = true
                  /\ strings.map_bytes strings.lower
                       (strings.map_bytes strings.lower s)
                     = strings.map_bytes strings.lower s).
  { induction s as [| c s IH]; [now split |].
    cbn [strings.isASCII strings.map_bytes] in *.
    apply andb_prop in Hascii as [Hc Hs]. destruct (IH Hs) as [IH1 IH2].
    rewrite (lower_ascii c Hc), IH1, IH2, lower_idempotent. now split. }
  destruct Hboth as [-> ->]. reflexivity.
Qed.

Lemma map_bytes_empty (f : ascii -> ascii) (s : string) :
  String.eqb (strings.map_bytes f s) "" = String.eqb s "".
Proof. destruct s; reflexivity. Qed.

Lemma MustEnv_missing (key : string) (w : os.process) :
  key = "" \/ os.lookup (os.environ w) key = None
  \/ os.lookup (os.environ w) key = Some "" ->
  MustEnv key w
  = (Panics (any_error (errors.New ("required env var missing: " ++ key))),
     w).
Proof.
  unfold MustEnv, bind. rewrite Errorf_required.
  intros [Hkey | [Hnone | Hempty]].
  - now rewrite (LookupEnv_missing w key (or_introl Hkey)).
  - now rewrite (LookupEnv_missing w key (or_intror Hnone)).
  - destruct (LookupEnv_cases w key)
      as [(value & _ & Hfound & ->) | [_ ->]]; [| reflexivity].
    replace value with "" by congruence. reflexivity.
Qed.

Section env_access_spec.

Variable Quote : string -> string.
Variable unicode_ToLower : string -> string.

(** X6. A variable set to the empty string counts as not set: each of
    [EnvString], [EnvInt], [EnvBool] and [MustEnv] ends the same way
    (same value returned, or same panic) in a process where the variable
    is empty as in one where it is missing. *)
Theorem Env_empty_is_unset (key : string) (w1 w2 : os.process)
  (strs : list string) (ints : list Z) (bools : list bool) :
  os.lookup (os.environ w1) key = None ->
  os.lookup (os.environ w2) key = Some "" ->
  fst (EnvString key strs w1) = fst (EnvString key strs w2)
  /\ fst (EnvInt Quote key ints w1) = fst (EnvInt Quote key ints w2)
  /\ fst (EnvBool Quote unicode_ToLower key bools w1)
     = fst (EnvBool Quote unicode_ToLower key bools w2)
  /\ fst (MustEnv key w1) = fst (MustEnv key w2).
Proof.
  intros Hmissing Hempty.
  unfold EnvString, EnvInt, EnvBool, MustEnv, bind.
  rewrite (LookupEnv_missing w1 key (or_intror Hmissing)).
  destruct (String.eqb_spec key "") as [-> | Hkey].
  - rewrite (LookupEnv_missing w2 "" (or_introl eq_refl)). cbn.
    repeat split; try reflexivity;
      [destruct strs | destruct ints | destruct bools]; reflexivity.
  - rewrite (LookupEnv_found w2 key "" Hkey Hempty). cbn.
    repeat split; try reflexivity;
      [destruct strs | destruct ints | destruct bools]; reflexivity.
Qed.

(** X7. [MustEnv] returns the value of a variable that is set and not
    empty, and panics with the text "required env var missing: " and the
    key otherwise; it never returns the empty string, and it leaves the
    process as it was. *)
Theorem MustEnv_spec (key : string) (w : os.process) :
  (forall value,
      key <> "" -> os.lookup (os.environ w) key = Some value ->
      value <> "" ->
      MustEnv key w = (Returns value, w))
  /\ (key = "" \/ os.lookup (os.environ w) key = None
      \/ os.lookup (os.environ w) key = Some "" ->
      MustEnv key w
      = (Panics (any_error (errors.New ("required env var missing: " ++ key))),
         w))
  /\ (forall value w',
        MustEnv key w = (Returns value, w') ->
        value <> "" /\ os.lookup (os.environ w) key = Some value /\ w' = w).
Proof.
  split; [| split; [apply MustEnv_missing |]];
    unfold MustEnv, bind; rewrite Errorf_required.
  - intros value Hkey Hfound Hvalue.
    rewrite (LookupEnv_found w key value Hkey Hfound). cbn.
    destruct (String.eqb_spec value ""); [contradiction | reflexivity].
  - intros value w'.
    destruct (LookupEnv_cases w key)
      as [(found & _ & Hfound & ->) | [_ ->]]; cbn; [| discriminate].
    destruct (String.eqb_spec found ""); [discriminate |].
    intros [= <- <-]. now repeat split.
Qed.

(** X8. With a default value, [EnvInt] and [EnvBool] never panic, and
    [EnvString] never panics at all; none of them changes the process. *)
Theorem Env_default_never_panics (key : string) (w : os.process)
  (strs : list string) (d : Z) (ds : list Z) (b : bool) (bs : list bool) :
  (exists value, EnvString key strs w = (Returns value, w))
  /\ (exists n, EnvInt Quote key (d :: ds) w = (Returns n, w))
  /\ (exists x,
        EnvBool Quote unicode_ToLower key (b :: bs) w = (Returns x, w)).
Proof.
  unfold EnvString, EnvInt, EnvBool, bind.
  destruct (LookupEnv_cases w key)
    as [(value & _ & _ & ->) | [_ ->]]; cbn.
  - destruct (String.eqb value "") eqn:Hempty; cbn.
    + repeat split; try (eexists; reflexivity).
      destruct strs; eexists; reflexivity.
    + split; [eexists; reflexivity |]. split.
      * destruct (strconv.Atoi value) as [v [err |]]; eexists; reflexivity.
      * destruct (String.eqb (strings.ToLower unicode_ToLower value) "true"
                  || _); [eexists; reflexivity |].
        destruct (String.eqb (strings.ToLower unicode_ToLower value) "false"
                  || _); eexists; reflexivity.
  - repeat split; try (eexists; reflexivity).
    destruct strs; eexists; reflexivity.
Qed.

(** X9. What [os.Setenv] stores as the decimal text of an [int],
    [EnvInt] reads back as that [int], whatever the default values. *)
Theorem EnvInt_reads_Itoa (key : string) (n : Z) (ds : list Z)
  (w w' : os.process) :
  minInt <= n <= maxInt ->
  os.Setenv key (strconv.Itoa n) w = (Returns None, w') ->
  EnvInt Quote key ds w' = (Returns n, w').
Proof.
  intros Hrange Hset. unfold os.Setenv in Hset.
  destruct (os.refused key (strconv.Itoa n)) eqn:Hrefused;
    [discriminate Hset |].
  injection Hset as <-.
  assert (Hkey : key <> "").
  { intros ->. discriminate Hrefused. }
  unfold EnvInt, bind.
  rewrite (LookupEnv_found _ key (strconv.Itoa n) Hkey)
    by (cbn [os.environ]; apply lookup_store_same).
  cbn [negb orb].
  destruct (String.eqb_spec (strconv.Itoa n) "") as [Hempty | _].
  - now apply Itoa_not_empty in Hempty.
  - now rewrite (Atoi_Itoa n Hrange).
Qed.

(** X10. [EnvBool] does not look at the case of ASCII letters: it returns
    the same truth value for a value of ASCII bytes as for that value in
    lower case. *)
Theorem EnvBool_ignores_case (key value : string) (w1 w2 : os.process)
  (defaults : list bool) (b : bool) :
  strings.isASCII value = true ->
  os.lookup (os.environ w1) key = Some value ->
  os.lookup (os.environ w2) key
  = Some (strings.map_bytes strings.lower value) ->
  (fst (EnvBool Quote unicode_ToLower key defaults w1) = Returns b
   <-> fst (EnvBool Quote unicode_ToLower key defaults w2) = Returns b).
Proof.
  intros Hascii H1 H2. unfold EnvBool, bind.
  destruct (String.eqb_spec key "") as [-> | Hkey].
  - rewrite !(LookupEnv_missing _ "" (or_introl eq_refl)).
    destruct defaults; reflexivity.
  - rewrite (LookupEnv_found w1 key _ Hkey H1).
    rewrite (LookupEnv_found w2 key _ Hkey H2).
    cbn [negb orb]. rewrite map_bytes_empty.
    rewrite (ToLower_lowered unicode_ToLower value Hascii).
    destruct (String.eqb value ""); [destruct defaults; reflexivity |].
    destruct (existsb _ _); [reflexivity |].
    destruct (existsb _ _); [reflexivity |].
    destruct defaults; [| reflexivity].
    unfold panic. cbn [fst]. split; intros Hpanic; discriminate Hpanic.
Qed.

End env_access_spec.

(** ** Reading numbers *)

Section input_numbers_spec.

Context {W : Type}.
Variable Print : string -> Go W unit.
Variable Scan : Go W scanned.
Variable TrimSpace : string -> string.
Variable Quote : string -> string.

#[local] Abbreviation raw := (inputRaw Print Scan TrimSpace).
#[local] Abbreviation InputInt' := (InputInt Print Scan TrimSpace Quote).
#[local] Abbreviation Input' := (Input Print Scan TrimSpace).

Lemma InputInt_after_raw (prompt input : string) (defaults : list Z)
  (w0 w : W) :
  raw prompt w0 = (Returns input, w) ->
  InputInt' prompt defaults w0
  = match strconv.Atoi input, defaults with
    | (value, None), _ => (Returns value, w)
    | (_, Some _), d :: _ => (Returns d, w)
    | (_, Some _), [] =>
        (Panics (any_error
           (errors.New ("invalid integer input: " ++ Quote input))), w)
    end.
Proof.
  intros Hraw. unfold InputInt, bind. rewrite Hraw.
  destruct (strconv.Atoi input) as [value [err |]]; [| reflexivity].
  destruct defaults; [| reflexivity].
  now rewrite Errorf_invalid_integer.
Qed.

(** X11. A line that is, once trimmed, the decimal text of an [int] makes
    [InputInt] return that [int], whatever the default values. *)
Theorem InputInt_reads_Itoa (prompt : string) (n : Z) (defaults : list Z)
  (w0 w : W) :
  minInt <= n <= maxInt ->
  raw prompt w0 = (Returns (strconv.Itoa n), w) ->
  InputInt' prompt defaults w0 = (Returns n, w).
Proof.
  intros Hrange Hraw.
  rewrite (InputInt_after_raw _ _ _ _ _ Hraw).
  now rewrite (Atoi_Itoa n Hrange).
Qed.

(** X12. With a default value, [InputInt] returns whenever a line could
    be read, with the number on the line or with the default; when it
    panics, the panic is the one of [inputRaw], with its payload. *)
Theorem InputInt_default (prompt : string) (d : Z) (ds : list Z) (w0 : W) :
  (forall input w,
      raw prompt w0 = (Returns input, w) ->
      exists n,
        InputInt' prompt (d :: ds) w0 = (Returns n, w)
        /\ (strconv.Atoi input = (n, None)
            \/ (snd (strconv.Atoi input) <> None /\ n = d)))
  /\ (forall p w,
        InputInt' prompt (d :: ds) w0 = (Panics p, w) ->
        raw prompt w0 = (Panics p, w)).
Proof.
  split.
  - intros input w Hraw. rewrite (InputInt_after_raw _ _ _ _ _ Hraw).
    destruct (strconv.Atoi input) as [value [err |]].
    + exists d. split; [reflexivity |]. right. now split.
    + exists value. split; [reflexivity |]. now left.
  - intros p w Hpanic.
    destruct (raw prompt w0) as [[input | p'] w'] eqn:Hraw.
    + rewrite (InputInt_after_raw _ _ _ _ _ Hraw) in Hpanic.
      destruct (strconv.Atoi input) as [value [err |]]; discriminate Hpanic.
    + unfold InputInt, bind in Hpanic. rewrite Hraw in Hpanic.
      now injection Hpanic as <- <-.
Qed.

(** X13. Without a default value, a line that is not the text of an [int]
    makes [InputInt] panic with the text "invalid integer input: " and
    the quoted line; an empty line is such a line. *)
Theorem InputInt_malformed (prompt input : string) (w0 w : W) :
  raw prompt w0 = (Returns input, w) ->
  (snd (strconv.Atoi input) <> None ->
   InputInt' prompt [] w0
   = (Panics (any_error
        (errors.New ("invalid integer input: " ++ Quote input))), w))
  /\ (input = "" ->
      InputInt' prompt [] w0
      = (Panics (any_error
           (errors.New ("invalid integer input: " ++ Quote ""))), w)).
Proof.
  intros Hraw. rewrite (InputInt_after_raw _ _ _ _ _ Hraw). split.
  - intros Herr. destruct (strconv.Atoi input) as [value [err |]];
      [reflexivity | now contradiction Herr].
  - intros ->. reflexivity.
Qed.

Lemma inputRaw_scan (prompt : string) (w0 w1 : W) :
  prompted Print prompt w0 w1 ->
  raw prompt w0
  = match Scan w1 with
    | (Returns (scan_token text), w2) => (Returns (TrimSpace text), w2)
    | (Returns (scan_stop (Some err)), w2) => (Panics (any_error err), w2)
    | (Returns (scan_stop None), w2) => (Panics (any_string "input error"), w2)
    | (Panics p, w2) => (Panics p, w2)
    end.
Proof.
  intros [[-> ->] | [Hprompt Hprint]]; unfold inputRaw, bind.
  - cbn. destruct (Scan w0) as [[[text | [err |]] | p] w2]; reflexivity.
  - destruct (String.eqb_spec prompt ""); [contradiction |].
    cbn [negb]. rewrite Hprint.
    destruct (Scan w1) as [[[text | [err |]] | p] w2]; reflexivity.
Qed.

(** X14. At the end of the input, [Input] and [InputInt] panic: with the
    error of the scanner when it has one, and with the string
    "input error" otherwise.  No validator is called, and a default
    value of [InputInt] does not prevent the panic. *)
Theorem Input_end_of_input (prompt : string) (validators : list (Validator W))
  (defaults : list Z) (err : option error) (w0 w1 w2 : W) :
  prompted Print prompt w0 w1 ->
  Scan w1 = (Returns (scan_stop err), w2) ->
  let payload :=
    match err with
    | Some e => any_error e
    | None => any_string "input error"
    end in
  Input' prompt validators w0 = (Panics payload, w2)
  /\ InputInt' prompt defaults w0 = (Panics payload, w2).
Proof.
  intros Hprompt Hscan payload.
  pose proof (inputRaw_scan prompt w0 w1 Hprompt) as Hraw.
  rewrite Hscan in Hraw.
  assert (Hpanic : raw prompt w0 = (Panics payload, w2)).
  { rewrite Hraw. unfold payload. destruct err; reflexivity. }
  unfold Input, InputInt, bind. now rewrite Hpanic.
Qed.

(** X15. [Try] around [Input]: when a validator rejects the line, [Try]
    returns the empty string and false, so the reason is lost, and [Or]
    then gives the fallback. *)
Theorem Try_Input_rejected (prompt input : string)
  (pre post : list (Validator W)) (validate : Validator W) (reason : error)
  (fallback : string) (w0 w w1 w2 : W) :
  raw prompt w0 = (Returns input, w) ->
  passes input pre w w1 ->
  validate input w1 = (Returns (Some reason), w2) ->
  Try (Input' prompt (pre ++ validate :: post)) w0 = (Returns ("", false), w2)
  /\ bind (Try (Input' prompt (pre ++ validate :: post)))
       (fun r => Or (fst r) (snd r) fallback) w0
     = (Returns fallback, w2).
Proof.
  intros Hraw Hpass Hrun.
  assert (Hinput : Input' prompt (pre ++ validate :: post) w0
                   = (Panics (any_error (invalid_string_input reason)), w2)).
  { unfold Input, bind. rewrite Hraw.
    rewrite (Input_range_passes input pre (validate :: post) w w1 Hpass).
    now apply Input_range_rejects. }
  pose proof (Try_panics _ _ _ _ Hinput) as Htry.
  split; [exact Htry |]. unfold bind. now rewrite Htry.
Qed.

End input_numbers_spec.

(** ** Random values *)

Lemma int_wrap_small (z : Z) : minInt <= z <= maxInt -> int_wrap z = z.
Proof.
  unfold minInt, maxInt, int_wrap. intros Hrange.
  rewrite Z.mod_small; lia.
Qed.

Lemma int_wrap_above (z : Z) :
  maxInt < z <= maxInt + 2 ^ 64 -> int_wrap z = z - 2 ^ 64.
Proof.
  unfold maxInt, int_wrap. intros Hrange.
  replace (z + 2 ^ 63) with (z + 2 ^ 63 - 2 ^ 64 + 1 * 2 ^ 64) by lia.
  rewrite Z.mod_add by lia. rewrite Z.mod_small; lia.
Qed.


Lemma index_in (W T : Type) (items : list T) (i : Z) (w : W) :
  0 <= i < len_slice items ->
  exists x, index items i w = (Returns x, w) /\ In x items.
Proof.
  intros Hrange. unfold index.
  destruct (Z.ltb_spec i 0); [lia |].
  destruct (Z.leb_spec (len_slice items) i); [lia |]. cbn [orb].
  destruct (nth_error items (Z.to_nat i)) as [x |] eqn:Hnth.
  - exists x. split; [reflexivity |]. now apply nth_error_In in Hnth.
  - apply nth_error_None in Hnth. unfold len_slice in *. lia.
Qed.

Section random_spec.

Context {W : Type}.
Variable Intn : Z -> Go W Z.

(** [rand.Intn(n)] returns a number from 0 to n - 1 when n is positive,
    and panics otherwise. *)
Hypothesis Intn_range :
  forall n w, 0 < n -> exists r w', Intn n w = (Returns r, w') /\ 0 <= r < n.
Hypothesis Intn_invalid :
  forall n w,
    n <= 0 -> Intn n w = (Panics (any_string "invalid argument to Intn"), w).

(** X16. For min <= max with fewer than 2^63 - 1 numbers between them,
    [RandInt] returns a number from min to max, both included. *)
Theorem RandInt_in_range (min max : Z) (w : W) :
  minInt <= min -> min <= max -> max <= maxInt ->
  max - min < maxInt ->
  exists r w', RandInt Intn min max w = (Returns r, w') /\ min <= r <= max.
Proof.
  unfold minInt, maxInt. intros Hmin Hle Hmax Hspan.
  unfold RandInt. destruct (Z.gtb_spec min max); [lia |].
  unfold int_add, int_sub.
  rewrite (int_wrap_small (max - min)) by (unfold minInt, maxInt; lia).
  rewrite (int_wrap_small (max - min + 1)) by (unfold minInt, maxInt; lia).
  destruct (Intn_range (max - min + 1) w ltac:(lia)) as (r & w' & Hrun & Hr).
  exists (r + min), w'. unfold bind. rewrite Hrun.
  rewrite (int_wrap_small (r + min)) by (unfold minInt, maxInt; lia).
  split; [reflexivity | lia].
Qed.

(** X17. When the numbers from min to max are 2^63 or more, the count
    [max - min + 1] wraps around to zero or below and [RandInt] panics
    inside [rand.Intn]; and when min is above max it panics with its own
    message. *)
Theorem RandInt_panics (min max : Z) (w : W) :
  minInt <= min <= maxInt -> minInt <= max <= maxInt ->
  (max < min ->
   RandInt Intn min max w
   = (Panics (any_string "min cannot be greater than max"), w))
  /\ (min <= max -> maxInt <= max - min ->
      RandInt Intn min max w
      = (Panics (any_string "invalid argument to Intn"), w)).
Proof.
  unfold minInt, maxInt. intros Hmin Hmax. unfold RandInt. split.
  - intros Hlt. destruct (Z.gtb_spec min max); [reflexivity | lia].
  - intros Hle Hspan. destruct (Z.gtb_spec min max); [lia |].
    unfold bind. rewrite Intn_invalid; [reflexivity |].
    unfold int_add, int_sub.
    destruct (Z.eq_dec (max - min) (2 ^ 63 - 1)) as [Heq | Hne].
    + rewrite (int_wrap_small (max - min)) by (unfold minInt, maxInt; lia).
      rewrite int_wrap_above by (unfold maxInt; lia). lia.
    + rewrite (int_wrap_above (max - min)) by (unfold maxInt; lia).
      rewrite int_wrap_small by (unfold minInt, maxInt; lia). lia.
Qed.

(** X18. [Choice] returns an element of a slice that is not empty, and
    panics with "cannot choose from empty slice" on an empty one. *)
Theorem Choice_spec {T : Type} (items : list T) (w : W) :
  (items <> [] ->
   exists x w', Choice Intn items w = (Returns x, w') /\ In x items)
  /\ (items = [] ->
      Choice Intn items w
      = (Panics (any_string "cannot choose from empty slice"), w)).
Proof.
  split.
  - intros Hitems. unfold Choice.
    assert (Hlen : 0 < len_slice items).
    { unfold len_slice. destruct items; [contradiction | cbn; lia]. }
    destruct (Z.eqb_spec (len_slice items) 0); [lia |].
    destruct (Intn_range (len_slice items) w Hlen) as (i & w' & Hrun & Hi).
    destruct (index_in W T items i w' Hi) as (x & Hindex & Hin).
    exists x, w'. unfold bind. rewrite Hrun. now split.
  - intros ->. reflexivity.
Qed.



End random_spec.

(** ** The GET helpers *)

Lemma Errorf_status_code (code : Z) :
  fmt.Errorf "status code: %d" [fmt.int_arg code]
  = errors.New ("status code: " ++ strconv.Itoa code).
Proof. unfold fmt.Errorf. cbn. now rewrite append_empty_r. Qed.

Section http_get_spec.

Context {W : Type}.
Variable Get : string -> Go W (error + http.Response).
Variable ReadAll : http.Response -> Go W (string * option error).
Variable Close : http.Response -> W -> W.

#[local] Abbreviation GetBody' := (GetBody Get ReadAll Close).
#[local] Abbreviation MustGetBody' := (MustGetBody Get ReadAll Close).

(** The ways [GetBody] ends: a panic of the network, an error with an
    empty body, or a body without error. *)
Lemma GetBody_cases (url : string) (w : W) :
  (exists p w', GetBody' url w = (Panics p, w'))
  \/ (exists e w', GetBody' url w = (Returns ("", Some e), w'))
  \/ (exists data w', GetBody' url w = (Returns (data, None), w')).
Proof.
  unfold GetBody.
  destruct (Get url w) as [[[e | resp] | p] w1].
  - right. left. now exists e, w1.
  - destruct (negb (http.StatusCode resp =? http.StatusOK)).
    + right. left. eexists. eexists. reflexivity.
    + unfold bind.
      destruct (ReadAll resp w1) as [[[data [e |]] | p] w2]; cbn.
      * right. left. now exists e, (Close resp w2).
      * right. right. now exists data, (Close resp w2).
      * left. now exists p, (Close resp w2).
  - left. now exists p, w1.
Qed.

(** X20. Whenever [GetBody] returns an error, the body it returns with
    it is the empty string, also when part of the body had been read. *)
Theorem GetBody_error_empty (url body : string) (err : error) (w w' : W) :
  GetBody' url w = (Returns (body, Some err), w') -> body = "".
Proof.
  intros Hrun.
  destruct (GetBody_cases url w)
    as [(p & w1 & Hcase) | [(e & w1 & Hcase) | (data & w1 & Hcase)]];
    rewrite Hcase in Hrun.
  - discriminate Hrun.
  - now injection Hrun as <- _ _.
  - discriminate Hrun.
Qed.

(** X21. Any status other than 200, the other 2xx ones included, is an
    error for [GetBody]: it returns the empty string and an error with
    the text "status code: " and the code, does not read the body, and
    closes it. *)
Theorem GetBody_status (url : string) (resp : http.Response) (w w1 : W) :
  Get url w = (Returns (inr resp), w1) ->
  http.StatusCode resp <> 200 ->
  GetBody' url w
  = (Returns ("",
       Some (errors.New
               ("status code: " ++ strconv.Itoa (http.StatusCode resp)))),
     Close resp w1).
Proof.
  intros Hget Hstatus. unfold GetBody. rewrite Hget.
  unfold http.StatusOK.
  destruct (Z.eqb_spec (http.StatusCode resp) 200); [contradiction |].
  cbn [negb]. now rewrite Errorf_status_code.
Qed.

(** X22. [Try] around [MustGetBody] gives back the body that [GetBody]
    returns, with true when [GetBody] returns no error and false when it
    returns one: only the detail of the error is lost. *)
Theorem Try_MustGetBody (url body : string) (err : option error) (w w' : W) :
  GetBody' url w = (Returns (body, err), w') ->
  Try (MustGetBody' url) w
  = (Returns (body, match err with None => true | Some _ => false end), w').
Proof.
  intros Hrun. destruct err as [e |].
  - assert (Hbody : body = "").
    { destruct (GetBody_cases url w)
        as [(p & w1 & Hcase) | [(e1 & w1 & Hcase) | (data & w1 & Hcase)]];
        rewrite Hcase in Hrun;
        [discriminate Hrun | now injection Hrun as <- _ _ | discriminate Hrun]. }
    subst body.
    apply Try_panics with (any_error e).
    unfold MustGetBody, bind. now rewrite Hrun.
  - apply Try_returns. unfold MustGetBody, bind. now rewrite Hrun.
Qed.

End http_get_spec.

(** ** Loading a file and reading a variable *)

Section env_file_access_spec.

Variable TrimSpace : string -> string.
Variable Quote : string -> string.

(** X23. A variable set to the empty string is set for [EnvFile], which
    leaves it empty whatever the file assigns to it, and missing for
    [MustEnv], which still panics on it once the file is loaded. *)
Theorem EnvFile_leaves_empty (path key : string) (w : os.process) :
  os.lookup (os.environ w) key = Some "" ->
  let w' := snd (EnvFile TrimSpace Quote path w) in
  os.lookup (os.environ w') key = Some ""
  /\ MustEnv key w'
     = (Panics (any_error (errors.New ("required env var missing: " ++ key))),
        w').
Proof.
  intros Hempty w'.
  assert (Hkept : os.lookup (os.environ w') key = Some "").
  { unfold w'. rewrite EnvFile_world.
    destruct (os.files w path) as [file |]; [| exact Hempty].
    now apply scan_keeps. }
  split; [exact Hkept |].
  apply MustEnv_missing. now right; right.
Qed.

End env_file_access_spec.

(** ** Runs in the example world *)

Lemma harness_Intn_range (n w : Z) :
  0 < n ->
  exists r w', harness.Intn n w = (Returns r, w') /\ 0 <= r < n.
Proof.
  intros Hn. unfold harness.Intn.
  destruct (Z.leb_spec n 0); [lia |].
  eexists. eexists. split; [reflexivity |]. now apply Z.mod_pos_bound.
Qed.

Lemma harness_Intn_invalid (n w : Z) :
  n <= 0 ->
  harness.Intn n w = (Panics (any_string "invalid argument to Intn"), w).
Proof.
  intros Hn. unfold harness.Intn.
  destruct (Z.leb_spec n 0); [reflexivity | lia].
Qed.

Example EnvFile_dotenv :
  EnvFile harness.TrimSpace harness.Quote ".env" harness.process
  = (Returns tt, harness.loaded).
Proof. reflexivity. Qed.

Lemma EnvFile_keeps_existing_witness :
  os.lookup (os.environ harness.process) "HOME" = Some "/root"
  /\ os.lookup
       (os.environ
          (snd (EnvFile harness.TrimSpace harness.Quote ".env"
                  harness.process))) "HOME"
     = Some "/root".
Proof.
  split; [reflexivity |].
  apply (EnvFile_keeps_existing harness.TrimSpace harness.Quote ".env"
           harness.process "HOME" "/root").
  reflexivity.
Defined.

Lemma EnvFile_sets_every_key_witness :
  EnvFile harness.TrimSpace harness.Quote ".env" harness.process
  = (Returns tt, harness.loaded)
  /\ is_set harness.loaded "DEBUG".
Proof.
  split; [reflexivity |].
  apply (EnvFile_sets_every_key harness.TrimSpace harness.Quote ".env"
           harness.process harness.loaded harness.dotenv
           "DEBUG=Yes" "DEBUG" "Yes").
  - reflexivity.
  - reflexivity.
  - cbn. tauto.
  - reflexivity.
Defined.

Lemma EnvFile_first_assignment_witness :
  os.lookup (os.environ harness.process) "PORT" = None
  /\ os.lookup
       (os.environ
          (snd (EnvFile harness.TrimSpace harness.Quote ".env"
                  harness.process))) "PORT"
     = Some "8080".
Proof.
  split; [reflexivity |].
  apply (EnvFile_first_assignment harness.TrimSpace harness.Quote ".env"
           harness.process harness.process ["# settings"; ""]
           ["HOME=/srv"; "DEBUG=Yes"; "PORT=9090"; "EMPTY=filled"] None
           "PORT = 8080"
           "PORT" "8080");
    reflexivity.
Defined.

Lemma EnvFile_idempotent_witness :
  EnvFile harness.TrimSpace harness.Quote ".env" harness.process
  = (Returns tt, harness.loaded)
  /\ EnvFile harness.TrimSpace harness.Quote ".env" harness.loaded
     = (Returns tt, harness.loaded).
Proof.
  split; [reflexivity |].
  apply (EnvFile_idempotent harness.TrimSpace harness.Quote ".env"
           harness.process harness.loaded).
  reflexivity.
Defined.

Lemma EnvFile_invalid_line_witness :
  os.has_byte (harness.TrimSpace "oops") "=" = false
  /\ EnvFile harness.TrimSpace harness.Quote "broken.env" harness.process
     = (Panics (any_error
          (errors.New ("invalid env line: " ++ harness.Quote "oops"))),
        os.mkProcess [("HOME", "/root"); ("EMPTY", ""); ("A", "1")]
          (os.files harness.process)).
Proof.
  split; [reflexivity |].
  apply (EnvFile_invalid_line harness.TrimSpace harness.Quote "broken.env"
           harness.process
           (os.mkProcess [("HOME", "/root"); ("EMPTY", ""); ("A", "1")]
              (os.files harness.process))
           ["A=1"] ["B=2"] None "oops");
    try reflexivity.
  discriminate.
Defined.

Lemma Env_empty_is_unset_witness :
  os.lookup [("HOME", "/root")] "EMPTY" = None
  /\ os.lookup (os.environ harness.process) "EMPTY" = Some ""
  /\ fst (EnvString "EMPTY" ["x"] harness.process) = Returns "x"
  /\ fst (MustEnv "EMPTY" harness.process)
     = Panics (any_error (errorString "required env var missing: EMPTY")).
Proof.
  split; [reflexivity |]. split; [reflexivity |].
  pose proof (Env_empty_is_unset harness.Quote (fun s => s) "EMPTY"
                (os.mkProcess [("HOME", "/root")] (os.files harness.process))
                harness.process ["x"] [] [] eq_refl eq_refl)
    as (Hstring & _ & _ & Hmust).
  split.
  - rewrite <- Hstring. reflexivity.
  - rewrite <- Hmust. reflexivity.
Defined.

Lemma MustEnv_spec_witness :
  os.lookup (os.environ harness.process) "HOME" = Some "/root"
  /\ MustEnv "HOME" harness.process = (Returns "/root", harness.process).
Proof.
  split; [reflexivity |].
  apply (proj1 (MustEnv_spec "HOME" harness.process) "/root");
    [discriminate | reflexivity | discriminate].
Defined.

Lemma EnvInt_reads_Itoa_witness :
  os.Setenv "PORT" (strconv.Itoa 8080) harness.process
  = (Returns None,
     os.mkProcess [("HOME", "/root"); ("EMPTY", ""); ("PORT", "8080")]
       (os.files harness.process))
  /\ EnvInt harness.Quote "PORT" []
       (os.mkProcess [("HOME", "/root"); ("EMPTY", ""); ("PORT", "8080")]
          (os.files harness.process))
     = (Returns 8080,
        os.mkProcess [("HOME", "/root"); ("EMPTY", ""); ("PORT", "8080")]
          (os.files harness.process)).
Proof.
  split; [reflexivity |].
  apply (EnvInt_reads_Itoa harness.Quote "PORT" 8080 [] harness.process).
  - unfold minInt, maxInt. lia.
  - reflexivity.
Defined.

Lemma EnvBool_ignores_case_witness :
  strings.isASCII "Yes" = true
  /\ fst (EnvBool harness.Quote (fun s => s) "DEBUG" [] harness.loaded)
     = Returns true.
Proof.
  split; [reflexivity |].
  apply (proj2 (EnvBool_ignores_case harness.Quote (fun s => s) "DEBUG" "Yes"
                  harness.loaded
                  (os.mkProcess [("DEBUG", "yes")] (os.files harness.process))
                  [] true eq_refl eq_refl eq_refl)).
  reflexivity.
Defined.

Lemma InputInt_reads_Itoa_witness :
  minInt <= 42 <= maxInt
  /\ InputInt_harness "n: " [7] (typed " 42 ")
     = (Returns 42, harness.mkWorld [] "n: " 0).
Proof.
  split; [unfold minInt, maxInt; lia |].
  apply (InputInt_reads_Itoa harness.Print harness.Scan harness.TrimSpace
           harness.Quote "n: " 42 [7] (typed " 42 ")).
  - unfold minInt, maxInt. lia.
  - reflexivity.
Defined.

Lemma InputInt_default_witness :
  exists n,
    InputInt_harness "n: " [7] (typed "4x2")
    = (Returns n, harness.mkWorld [] "n: " 0)
    /\ (strconv.Atoi "4x2" = (n, None)
        \/ (snd (strconv.Atoi "4x2") <> None /\ n = 7)).
Proof.
  apply (proj1 (InputInt_default harness.Print harness.Scan harness.TrimSpace
                  harness.Quote "n: " 7 [] (typed "4x2"))).
  reflexivity.
Defined.

Lemma InputInt_malformed_witness :
  snd (strconv.Atoi "12a") <> None
  /\ InputInt_harness "n: " [] (typed "12a")
     = (Panics (any_error
          (errors.New ("invalid integer input: " ++ harness.Quote "12a"))),
        harness.mkWorld [] "n: " 0).
Proof.
  split; [discriminate |].
  apply (proj1 (InputInt_malformed harness.Print harness.Scan
                  harness.TrimSpace harness.Quote "n: " "12a" (typed "12a")
                  (harness.mkWorld [] "n: " 0) eq_refl)).
  discriminate.
Defined.

Lemma Input_end_of_input_witness :
  harness.Scan (harness.mkWorld [] "" 0)
  = (Returns (scan_stop None), harness.mkWorld [] "" 0)
  /\ InputInt_harness "" [7] (harness.mkWorld [] "" 0)
     = (Panics (any_string "input error"), harness.mkWorld [] "" 0).
Proof.
  split; [reflexivity |].
  apply (Input_end_of_input harness.Print harness.Scan harness.TrimSpace
           harness.Quote "" [] [7] None (harness.mkWorld [] "" 0)
           (harness.mkWorld [] "" 0) (harness.mkWorld [] "" 0)).
  - left. now split.
  - reflexivity.
Defined.

Lemma Try_Input_rejected_witness :
  Try (Input_harness "name: " chain) (typed "  ab ")
  = (Returns ("", false), harness.mkWorld [] "name: " 0)
  /\ bind (Try (Input_harness "name: " chain))
       (fun r => Or (fst r) (snd r) "anonymous") (typed "  ab ")
     = (Returns "anonymous", harness.mkWorld [] "name: " 0).
Proof.
  apply (Try_Input_rejected harness.Print harness.Scan harness.TrimSpace
           "name: " "ab" [NotEmpty] [harness.counting (MaxLen 5)] (MinLen 3)
           (errorString "minimum length is 3") "anonymous"
           (typed "  ab ") (harness.mkWorld [] "name: " 0)
           (harness.mkWorld [] "name: " 0) (harness.mkWorld [] "name: " 0)).
  - reflexivity.
  - eapply passes_cons; [reflexivity | apply passes_nil].
  - reflexivity.
Defined.

Lemma RandInt_in_range_witness :
  exists r w', RandInt harness.Intn 3 9 42 = (Returns r, w') /\ 3 <= r <= 9.
Proof.
  apply (RandInt_in_range harness.Intn harness_Intn_range 3 9 42);
    unfold minInt, maxInt; lia.
Defined.

Lemma RandInt_panics_witness :
  RandInt harness.Intn 9 3 42
  = (Panics (any_string "min cannot be greater than max"), 42)
  /\ RandInt harness.Intn minInt maxInt 42
     = (Panics (any_string "invalid argument to Intn"), 42).
Proof.
  split.
  - apply (proj1 (RandInt_panics harness.Intn harness_Intn_invalid 9 3 42
                    ltac:(unfold minInt, maxInt; lia)
                    ltac:(unfold minInt, maxInt; lia))).
    lia.
  - apply (proj2 (RandInt_panics harness.Intn harness_Intn_invalid
                    minInt maxInt 42
                    ltac:(unfold minInt, maxInt; lia)
                    ltac:(unfold minInt, maxInt; lia)));
      unfold minInt, maxInt; lia.
Defined.

Lemma Choice_spec_witness :
  exists x w',
    Choice harness.Intn ["a"; "b"; "c"] 7 = (Returns x, w')
    /\ In x ["a"; "b"; "c"].
Proof.
  apply (proj1 (Choice_spec harness.Intn harness_Intn_range
                  ["a"; "b"; "c"] 7)).
  discriminate.
Defined.


Lemma GetBody_error_empty_witness :
  GetBody_harness "http://nowhere" 0
  = (Returns ("", Some (foreignError "*url.Error" "no such host")), 0)
  /\ "" = "".
Proof.
  split; [reflexivity |].
  apply (GetBody_error_empty harness.Get harness.ReadAll harness.Close
           "http://nowhere" ""
           (foreignError "*url.Error" "no such host") 0 0).
  reflexivity.
Defined.

Lemma GetBody_status_witness :
  GetBody_harness "http://host/new" 0
  = (Returns ("", Some (errorString "status code: 201")), 1).
Proof.
  apply (GetBody_status harness.Get harness.ReadAll harness.Close
           "http://host/new" (http.mkResponse 201 ("made", None)) 0 0).
  - reflexivity.
  - discriminate.
Defined.

Lemma Try_MustGetBody_witness :
  Try (MustGetBody harness.Get harness.ReadAll harness.Close "http://host/ok")
    0
  = (Returns ("hello", true), 1)
  /\ Try (MustGetBody harness.Get harness.ReadAll harness.Close
            "http://host/new") 0
     = (Returns ("", false), 1).
Proof.
  split.
  - apply (Try_MustGetBody harness.Get harness.ReadAll harness.Close
             "http://host/ok" "hello" None 0 1).
    reflexivity.
  - apply (Try_MustGetBody harness.Get harness.ReadAll harness.Close
             "http://host/new" ""
             (Some (errorString "status code: 201")) 0 1).
    reflexivity.
Defined.

Lemma EnvFile_leaves_empty_witness :
  os.lookup (os.environ harness.process) "EMPTY" = Some ""
  /\ MustEnv "EMPTY"
       (snd (EnvFile harness.TrimSpace harness.Quote ".env" harness.process))
     = (Panics (any_error (errorString "required env var missing: EMPTY")),
        harness.loaded).
Proof.
  split; [reflexivity |].
  apply (proj2 (EnvFile_leaves_empty harness.TrimSpace harness.Quote ".env"
                  "EMPTY" harness.process eq_refl)).
Defined.
